(** * SCGP::Profiler (src/Profiler.h): a shallow embedding and its properties

    The recorder keeps a flat pool of [Sample] records.  Nesting is stored in
    the [Parent] index of every record, and [CurrentSample] is the innermost
    open record (or -1).  The pool doubles when fewer than two slots are left.

    Modelling choices, all read off the source:
    - [std::int64_t] and [int] values are integers of [Z]; an arithmetic
      operation whose exact result leaves the type is undefined behaviour and
      ends the run with [SignedOverflow];
    - [std::uint64_t] values are integers of [Z] reduced modulo 2^64;
    - [SamplePool] is the allocated array, a list with one entry per slot;
      a subscript outside of it ends the run with [OutOfBounds];
    - [new Sample[n]] leaves its slots uninitialised: their content is taken
      from an arbitrary function [indeterminate]; the request throws when the
      byte size is not representable or the heap cannot serve it ([BadAlloc]);
    - [std::chrono::steady_clock::now()] is an oracle: the k-th reading of the
      clock made by the program is [steady_clock_now k];
    - [double] is IEEE 754 binary64 as specified by [SpecFloat] (round to
      nearest, ties to even), and [%f] prints the exact value of a double
      rounded to six decimals, as the C library does. *)

From Stdlib Require Import ZArith Lia Ascii String DecimalString Floats.SpecFloat.
From stdpp Require Import list strings.
From Equations Require Import Equations.

Local Open Scope Z_scope.

(** ** Machine integers *)

Definition INT_MAX : Z := 2 ^ 31 - 1.
Definition INT64_MIN : Z := - 2 ^ 63.
Definition INT64_MAX : Z := 2 ^ 63 - 1.
Definition SIZE_MAX : Z := 2 ^ 64 - 1.

Definition in_int64 (z : Z) : bool := (INT64_MIN <=? z) && (z <=? INT64_MAX).

(** Conversion of an integer to [std::uint64_t] (and to [size_t]). *)
Definition to_uint64 (z : Z) : Z := z mod 2 ^ 64.

(** ** Data *)

(** [struct Sample]; [Name] is the text the [const char*] points to. *)
Record Sample : Type := mkSample {
  Parent : Z;
  BeginNanoseconds : Z;
  EndNanoseconds : Z;
  Name : string
}.

(** [sizeof(Sample)]: three 8-byte integers and a pointer. *)
Definition sizeof_Sample : Z := 32.

(** The data members of [class Profiler]. *)
Record Profiler : Type := mkProfiler {
  SamplePool : list Sample;
  SampleCount : Z;
  CurrentSample : Z;
  SampleCapacity : Z;
  ClockStart : Z
}.

(** ** Runs: clock readings and faults *)

Inductive Fault : Type :=
| OutOfBounds
| SignedOverflow
| BadAlloc
| BadFormat.

Inductive outcome (A : Type) : Type :=
| Done (a : A)
| Crash (f : Fault).
Arguments Done {A} a.
Arguments Crash {A} f.

(** A computation threads the number of clock readings made so far. *)
Definition M (A : Type) : Type := nat -> outcome (A * nat).

Definition ret {A} (a : A) : M A := fun w => Done (a, w).

Definition bind {A B} (m : M A) (k : A -> M B) : M B :=
  fun w => match m w with
           | Done (a, w') => k a w'
           | Crash f => Crash f
           end.

Definition raise {A} (f : Fault) : M A := fun _ => Crash f.

Declare Scope prof_scope.
Delimit Scope prof_scope with prof.
Notation "x <- c1 ;; c2" := (bind c1 (fun x => c2))
  (at level 100, c1 at next level, right associativity) : prof_scope.
Local Open Scope prof_scope.

(** [a + b] and [a * b] on [std::int64_t]. *)
Definition int64_add (a b : Z) : M Z :=
  if in_int64 (a + b) then ret (a + b) else raise SignedOverflow.

Definition int64_mul (a b : Z) : M Z :=
  if in_int64 (a * b) then ret (a * b) else raise SignedOverflow.

(** [auto& sample = pool[i]]: the record stored in slot [i]. *)
Definition subscript (pool : list Sample) (i : Z) : M Sample :=
  if 0 <=? i then
    match pool !! Z.to_nat i with
    | Some s => ret s
    | None => raise OutOfBounds
    end
  else raise OutOfBounds.

(** Assignment through a reference obtained by [subscript]. *)
Definition store (pool : list Sample) (i : Z) (s : Sample) : list Sample :=
  <[ Z.to_nat i := s ]> pool.

(** [std::memcpy(dst, src, nbytes)] on arrays of [Sample]; the byte count
    the source passes is always a multiple of [sizeof(Sample)]. *)
Definition memcpy (dst src : list Sample) (nbytes : Z) : M (list Sample) :=
  let n := Z.to_nat (nbytes / sizeof_Sample) in
  if (n <=? length src)%nat && (n <=? length dst)%nat
  then ret (take n src ++ drop n dst)
  else raise OutOfBounds.

(** ** Doubles and [printf] *)

Definition double : Type := spec_float.

(** Conversion of an integer to [double] and division of doubles. *)
Definition double_of_Z (z : Z) : double := binary_normalize 53 1024 z 0 false.
Definition double_div (x y : double) : double := SFdiv 53 1024 x y.

Definition round_half_even (n d : Z) : Z :=
  let q := n / d in
  let r := n mod d in
  match 2 * r ?= d with
  | Lt => q
  | Gt => q + 1
  | Eq => if Z.even q then q else q + 1
  end.

Definition decimal (n : Z) : string := NilZero.string_of_uint (N.to_uint (Z.to_N n)).

(** The last [k] decimal digits of [n], with leading zeros. *)
Fixpoint fixed_digits (k : nat) (n : Z) : string :=
  match k with
  | O => EmptyString
  | S k' => fixed_digits k' (n / 10) +:+ decimal (n mod 10)
  end.

Definition sign_text (s : bool) : string := if s then "-" else EmptyString.

(** The conversion [%f]: six digits after the decimal point. *)
Definition fmt_f (x : double) : string :=
  match x with
  | S754_zero s => sign_text s +:+ "0.000000"
  | S754_infinity s => sign_text s +:+ "inf"
  | S754_nan => "nan"
  | S754_finite s m e =>
      let scaled :=
        if 0 <=? e then Z.pos m * 2 ^ e * 10 ^ 6
        else round_half_even (Z.pos m * 10 ^ 6) (2 ^ (- e)) in
      sign_text s +:+ decimal (scaled / 10 ^ 6) +:+ "."
        +:+ fixed_digits 6 (scaled mod 10 ^ 6)
  end.

Inductive printf_arg : Type :=
| arg_double (d : double)
| arg_string (s : string).

(** The text [std::vsnprintf] produces for the conversions the source uses;
    an argument that does not fit its conversion has no defined result. *)
Fixpoint vsnprintf (format : string) (args : list printf_arg) : option string :=
  match format with
  | EmptyString => Some EmptyString
  | String "%"%char (String "f"%char rest) =>
      match args with
      | arg_double d :: args' => String.app (fmt_f d) <$> vsnprintf rest args'
      | _ => None
      end
  | String "%"%char (String "s"%char rest) =>
      match args with
      | arg_string s :: args' => String.app s <$> vsnprintf rest args'
      | _ => None
      end
  | String "%"%char (String "%"%char rest) => String "%"%char <$> vsnprintf rest args
  | String "%"%char _ => None
  | String c rest => String c <$> vsnprintf rest args
  end.

(** [Profiler::FmtString] *)
Definition FmtString (format : string) (args : list printf_arg) : M string :=
  match vsnprintf format args with
  | Some s => ret s
  | None => raise BadFormat
  end.

(** The format of line 195, written with an apostrophe for each double
    quote of the source and converted here. *)
Definition requote (s : string) : string :=
  string_of_list_ascii
    (map (fun c => if Ascii.eqb c "'"%char then "034"%char else c) (list_ascii_of_string s)).

Definition event_format : string :=
  Eval vm_compute in
    requote "{ 'pid':1, 'tid':1, 'ts': %f, 'dur': %f, 'ph':'X', 'name':'%s', 'args':{ 'ms':%f }}".

(** ** Export *)

(** The arguments of the call of [FmtString] for the record [e]. *)
Definition event_args (e : Sample) : list printf_arg :=
  [ arg_double (double_div (double_of_Z (BeginNanoseconds e)) (double_of_Z 1000));
    arg_double (double_div
                  (double_of_Z (to_uint64 (EndNanoseconds e - BeginNanoseconds e)))
                  (double_of_Z 1000));
    arg_string (Name e);
    arg_double (double_div
                  (double_of_Z (to_uint64 (EndNanoseconds e - BeginNanoseconds e)))
                  (double_of_Z 1000000)) ].

(** The loop of [ToChromeTracingEvents(profiler, appendTo)], entered with
    the [int] counter at [i]. *)
Equations? ToChromeTracingEvents_from (profiler : Profiler) (i : Z)
    (appendTo : list string) : M (list string)
    by wf (Z.to_nat (SampleCount profiler - i)) lt :=
  ToChromeTracingEvents_from profiler i appendTo with Z_lt_dec i (SampleCount profiler) := {
    | right _ => ret appendTo
    | left _ =>
        e <- subscript (SamplePool profiler) i ;;
        s <- FmtString event_format (event_args e) ;;
        if i <? INT_MAX
        then ToChromeTracingEvents_from profiler (i + 1) (appendTo ++ [s])
        else raise SignedOverflow }.
Proof. lia. Qed.

(** [ToChromeTracingEvents(const Profiler&, std::vector<std::string>&)] *)
Definition ToChromeTracingEvents_append (profiler : Profiler)
    (appendTo : list string) : M (list string) :=
  ToChromeTracingEvents_from profiler 0 appendTo.

(** [ToChromeTracingEvents(const Profiler&)] *)
Definition ToChromeTracingEvents (profiler : Profiler) : M (list string) :=
  ToChromeTracingEvents_append profiler [].

(** *** The event format as the specification describes it

    One object per event with the fields [pid], [tid], [ts], [dur], [ph],
    [name] and [args.ms]. *)

Record Event : Type := mkEvent {
  ev_pid : Z;
  ev_tid : Z;
  ev_ts : double;
  ev_dur : double;
  ev_ph : string;
  ev_name : string;
  ev_args_ms : double
}.

Definition quote : string := String "034"%char EmptyString.
Definition quoted (s : string) : string := quote +:+ s +:+ quote.

Definition render (ev : Event) : string :=
  "{ " +:+ quoted "pid" +:+ ":" +:+ decimal (ev_pid ev) +:+ ", "
       +:+ quoted "tid" +:+ ":" +:+ decimal (ev_tid ev) +:+ ", "
       +:+ quoted "ts" +:+ ": " +:+ fmt_f (ev_ts ev) +:+ ", "
       +:+ quoted "dur" +:+ ": " +:+ fmt_f (ev_dur ev) +:+ ", "
       +:+ quoted "ph" +:+ ":" +:+ quoted (ev_ph ev) +:+ ", "
       +:+ quoted "name" +:+ ":" +:+ quoted (ev_name ev) +:+ ", "
       +:+ quoted "args" +:+ ":{ " +:+ quoted "ms" +:+ ":" +:+ fmt_f (ev_args_ms ev)
       +:+ " }}".

(** The event of a sample: times in microseconds, the duration also in
    milliseconds, all by division of doubles. *)
Definition event_of (e : Sample) : Event :=
  {| ev_pid := 1;
     ev_tid := 1;
     ev_ts := double_div (double_of_Z (BeginNanoseconds e)) (double_of_Z 1000);
     ev_dur := double_div
              (double_of_Z (to_uint64 (EndNanoseconds e - BeginNanoseconds e)))
              (double_of_Z 1000);
     ev_ph := "X";
     ev_name := Name e;
     ev_args_ms := double_div
                  (double_of_Z (to_uint64 (EndNanoseconds e - BeginNanoseconds e)))
                  (double_of_Z 1000000) |}.

(** ** The recorder *)

(** What the program takes from its platform. *)
Record Platform : Type := mkPlatform {
  (** the k-th reading of the monotonic clock, in nanoseconds *)
  steady_clock_now : nat -> Z;
  (** content of slot [i] of a freshly allocated array of [n] records *)
  indeterminate : Z -> nat -> Sample;
  (** largest number of records the heap serves in one request *)
  heap_limit : Z
}.

Inductive Call : Type :=
| Begin (name : string)
| End_.

Definition ReallocateSamplePool_name : string :=
  "SCGP.Profiler.ReallocateSamplePool".

Section Recorder.

Variable E : Platform.

Definition now : M Z := fun w => Done (steady_clock_now E w, S w).

(** A request [new Sample[n]] that is served. *)
Definition grants (n : Z) : bool :=
  (0 <=? n) && (n * sizeof_Sample <=? SIZE_MAX) && (n <=? heap_limit E).

Definition new_Sample_array (n : Z) : M (list Sample) :=
  if grants n
  then ret (map (indeterminate E n) (seq 0 (Z.to_nat n)))
  else raise BadAlloc.

(** [Profiler::Profiler(int initialCapacity)] *)
Definition new_Profiler (initialCapacity : Z) : M Profiler :=
  let capacity := if initialCapacity <? 2 then 2 else initialCapacity in
  pool <- new_Sample_array capacity ;;
  start <- now ;;
  ret {| SamplePool := pool;
         SampleCount := 0;
         CurrentSample := -1;
         SampleCapacity := capacity;
         ClockStart := start |}.

(** [Profiler::ElapsedNanoseconds]: the tick count of [now() - ClockStart]
    returned as [std::uint64_t]. *)
Definition ElapsedNanoseconds (p : Profiler) : M Z :=
  t <- now ;;
  ret (to_uint64 (t - ClockStart p)).

(** The body of the [if] of [BeginSample] (lines 93-106): the pool is
    doubled and the reallocation is recorded as a sample of its own. *)
Definition ReallocateSamplePool (p : Profiler) : M Profiler :=
  begin <- ElapsedNanoseconds p ;;
  new_capacity <- int64_mul (SampleCapacity p) 2 ;;
  new_sample_pool <- new_Sample_array new_capacity ;;
  new_sample_pool <- memcpy new_sample_pool (SamplePool p)
                       (to_uint64 (SampleCapacity p * sizeof_Sample)) ;;
  end_ <- ElapsedNanoseconds p ;;
  _ <- subscript new_sample_pool (SampleCount p) ;;
  count <- int64_add (SampleCount p) 1 ;;
  ret {| SamplePool :=
           store new_sample_pool (SampleCount p)
             {| Parent := CurrentSample p;
                BeginNanoseconds := begin;
                EndNanoseconds := end_;
                Name := ReallocateSamplePool_name |};
         SampleCount := count;
         CurrentSample := CurrentSample p;
         SampleCapacity := new_capacity;
         ClockStart := ClockStart p |}.

(** [Profiler::BeginSample] *)
Definition BeginSample (name : string) (p : Profiler) : M Profiler :=
  sample <- subscript (SamplePool p) (SampleCount p) ;;
  elapsed <- ElapsedNanoseconds p ;;
  count <- int64_add (SampleCount p) 1 ;;
  let p1 :=
    {| SamplePool :=
         store (SamplePool p) (SampleCount p)
           {| Parent := CurrentSample p;
              BeginNanoseconds := elapsed;
              EndNanoseconds := EndNanoseconds sample;
              Name := name |};
       SampleCount := count;
       CurrentSample := SampleCount p;
       SampleCapacity := SampleCapacity p;
       ClockStart := ClockStart p |} in
  next <- int64_add (SampleCount p1) 1 ;;
  if next >=? SampleCapacity p1 then ReallocateSamplePool p1 else ret p1.

(** [Profiler::EndSample] *)
Definition EndSample (p : Profiler) : M Profiler :=
  endTicks <- ElapsedNanoseconds p ;;
  sample <- subscript (SamplePool p) (CurrentSample p) ;;
  ret {| SamplePool :=
           store (SamplePool p) (CurrentSample p)
             {| Parent := Parent sample;
                BeginNanoseconds := BeginNanoseconds sample;
                EndNanoseconds := endTicks;
                Name := Name sample |};
         SampleCount := SampleCount p;
         CurrentSample := Parent sample;
         SampleCapacity := SampleCapacity p;
         ClockStart := ClockStart p |}.

(** [ScopedSampler::ScopedSampler(owner, name)] with [owner] the recorder
    at hand, and [ScopedSampler::~ScopedSampler()]. *)
Definition ScopedSampler_new (name : string) (p : Profiler) : M Profiler :=
  BeginSample name p.

Definition ScopedSampler_delete (p : Profiler) : M Profiler :=
  EndSample p.

(** [Profiler::ScopedSample] *)
Definition ScopedSample (name : string) (p : Profiler) : M Profiler :=
  ScopedSampler_new name p.

(** A block that holds a sampler, as in the example of lines 133-140:
    [{ auto _ = p.ScopedSample(name); body }]. *)
Definition scoped (name : string) (body : Profiler -> M Profiler)
    (p : Profiler) : M Profiler :=
  p1 <- ScopedSample name p ;;
  p2 <- body p1 ;;
  ScopedSampler_delete p2.

(** *** Sequences of calls *)

Definition call (c : Call) (p : Profiler) : M Profiler :=
  match c with
  | Begin name => BeginSample name p
  | End_ => EndSample p
  end.

Fixpoint calls (cs : list Call) (p : Profiler) : M Profiler :=
  match cs with
  | [] => ret p
  | c :: cs' => p' <- call c p ;; calls cs' p'
  end.

(** A fresh recorder followed by a sequence of calls. *)
Definition session (initialCapacity : Z) (cs : list Call) : M Profiler :=
  p <- new_Profiler initialCapacity ;;
  calls cs p.

(** The states a program can bring a recorder into. *)
Inductive reachable : Profiler -> Prop :=
| reachable_new initialCapacity w p w' :
    new_Profiler initialCapacity w = Done (p, w') -> reachable p
| reachable_call c p w p' w' :
    reachable p -> call c p w = Done (p', w') -> reachable p'.

(** *** Nesting depth

    The same run, with the number [open] of samples that are open and,
    for every record of the pool in pool order, the number of samples that
    were open when the record was written.  The record of a reallocation
    is written after the sample that triggers it has become the current
    one. *)
Definition call_depths (c : Call) (p : Profiler) (open : nat) (depths : list nat)
    : M (Profiler * nat * list nat) :=
  match c with
  | Begin name =>
      p' <- BeginSample name p ;;
      ret (p', S open,
           depths ++ open ::
             (if SampleCapacity p' =? SampleCapacity p then [] else [S open]))
  | End_ =>
      p' <- EndSample p ;;
      ret (p', Nat.pred open, depths)
  end.

Fixpoint calls_depths (cs : list Call) (p : Profiler) (open : nat)
    (depths : list nat) : M (Profiler * nat * list nat) :=
  match cs with
  | [] => ret (p, open, depths)
  | c :: cs' =>
      r <- call_depths c p open depths ;;
      calls_depths cs' r.1.1 r.1.2 r.2
  end.

Definition session_depths (initialCapacity : Z) (cs : list Call)
    : M (Profiler * nat * list nat) :=
  p <- new_Profiler initialCapacity ;;
  calls_depths cs p 0%nat [].

End Recorder.

(** Number of [Parent] links to follow from record [i] to reach a record
    whose parent is -1. *)
Fixpoint steps_to_top_level (fuel : nat) (pool : list Sample) (i : Z) : option nat :=
  match fuel with
  | O => None
  | S fuel' =>
      if 0 <=? i then
        match pool !! Z.to_nat i with
        | None => None
        | Some s =>
            if Parent s =? -1 then Some 0%nat
            else S <$> steps_to_top_level fuel' pool (Parent s)
        end
      else None
  end.

(** Well-nested sequences: [nesting open cs] is the number of samples left
    open by [cs] when [open] are open before, provided no [EndSample] comes
    with nothing open. *)
Fixpoint nesting (open : nat) (cs : list Call) : option nat :=
  match cs with
  | [] => Some open
  | Begin _ :: cs' => nesting (S open) cs'
  | End_ :: cs' =>
      match open with
      | O => None
      | S open' => nesting open' cs'
      end
  end.

Definition well_nested (cs : list Call) : Prop := nesting 0 cs = Some 0%nat.

(** ** Well-formed recorder states *)

Record wf (p : Profiler) : Prop := mk_wf {
  wf_allocated : Z.of_nat (length (SamplePool p)) = SampleCapacity p;
  wf_addressable : SampleCapacity p * sizeof_Sample <= SIZE_MAX;
  wf_count : 0 <= SampleCount p;
  wf_free : SampleCount p + 2 <= SampleCapacity p;
  wf_current : -1 <= CurrentSample p < SampleCount p;
  wf_parent : forall i s,
      0 <= i < SampleCount p ->
      SamplePool p !! Z.to_nat i = Some s ->
      -1 <= Parent s < i
}.

(** What a run with depths maintains: the chain of parents of every record
    has the length recorded for it, and the chain that starts at
    [CurrentSample] consists of the [open] samples that are open. *)
Definition depth_inv (p : Profiler) (open : nat) (depths : list nat) : Prop :=
  wf p /\
  Z.of_nat (length depths) = SampleCount p /\
  (forall i, 0 <= i < SampleCount p ->
             exists d, depths !! Z.to_nat i = Some d /\
                       steps_to_top_level (S (Z.to_nat i)) (SamplePool p) i = Some d) /\
  match open with
  | O => CurrentSample p = -1
  | S d => 0 <= CurrentSample p /\ depths !! Z.to_nat (CurrentSample p) = Some d
  end.

(** ** A platform to run examples on *)

Definition example_platform : Platform :=
  {| steady_clock_now := fun k => 1000 + 1500 * Z.of_nat k;
     indeterminate := fun _ _ => mkSample 0 0 0 EmptyString;
     heap_limit := 1000 |}.

(** The same platform with a clock that stops after 1000 readings, so that
    the time it measures stays within [std::uint64_t]. *)
Definition capped_platform : Platform :=
  {| steady_clock_now := fun k => 1000 + 1500 * Z.of_nat (Nat.min k 1000);
     indeterminate := fun _ _ => mkSample 0 0 0 EmptyString;
     heap_limit := 1000 |}.

(** A recorder of capacity 2 right after its construction at reading 0. *)
Definition fresh_recorder : Profiler :=
  {| SamplePool := [mkSample 0 0 0 EmptyString; mkSample 0 0 0 EmptyString];
     SampleCount := 0;
     CurrentSample := -1;
     SampleCapacity := 2;
     ClockStart := 1000 |}.

(** The recorder above after [BeginSample "A"] at the readings 1 to 3: the
    pool has been doubled and the reallocation recorded. *)
Definition fresh_recorder_in_A : Profiler :=
  {| SamplePool := [mkSample (-1) 1500 0 "A";
                    mkSample 0 3000 4500 ReallocateSamplePool_name;
                    mkSample 0 0 0 EmptyString; mkSample 0 0 0 EmptyString];
     SampleCount := 2;
     CurrentSample := 0;
     SampleCapacity := 4;
     ClockStart := 1000 |}.

(** A recorder of capacity 4 in which the sample "A" is open. *)
Definition recorder_in_A : Profiler :=
  {| SamplePool := [mkSample (-1) 1500 0 "A"; mkSample 0 0 0 EmptyString;
                    mkSample 0 0 0 EmptyString; mkSample 0 0 0 EmptyString];
     SampleCount := 1;
     CurrentSample := 0;
     SampleCapacity := 4;
     ClockStart := 1000 |}.

(** A recorder of capacity 4 in which the sample "A" has been closed. *)
Definition recorder_after_A : Profiler :=
  {| SamplePool := [mkSample (-1) 1500 4000 "A"; mkSample 0 0 0 EmptyString;
                    mkSample 0 0 0 EmptyString; mkSample 0 0 0 EmptyString];
     SampleCount := 1;
     CurrentSample := -1;
     SampleCapacity := 4;
     ClockStart := 1000 |}.

(** A recorder that holds 2^31 closed samples in a pool of 2^32 slots. *)
Definition crowded_recorder : Profiler :=
  {| SamplePool := replicate (Z.to_nat (2 ^ 32)) (mkSample (-1) 0 0 "x");
     SampleCount := 2 ^ 31;
     CurrentSample := -1;
     SampleCapacity := 2 ^ 32;
     ClockStart := 0 |}.

(** The value [ElapsedNanoseconds] returns at the [w]-th reading. *)
Definition elapsed (E : Platform) (p : Profiler) (w : nat) : Z :=
  to_uint64 (steady_clock_now E w - ClockStart p).

(** The test of line 91, on the state [BeginSample] is called in. *)
Definition triggers_growth (p : Profiler) : bool :=
  SampleCount p + 1 + 1 >=? SampleCapacity p.

(** Number of [BeginSample] calls of a sequence. *)
Fixpoint count_begins (cs : list Call) : Z :=
  match cs with
  | [] => 0
  | Begin _ :: cs' => 1 + count_begins cs'
  | End_ :: cs' => count_begins cs'
  end.

(** [p'] continues [p] at the same nesting: the same sample is current and
    the records [p] holds are all as they were. *)
Definition extends (p p' : Profiler) : Prop :=
  wf p' /\
  CurrentSample p' = CurrentSample p /\
  SampleCount p <= SampleCount p' /\
  ClockStart p' = ClockStart p /\
  forall i : nat, Z.of_nat i < SampleCount p ->
                  SamplePool p' !! i = SamplePool p !! i.

(** Code that uses a recorder and gives it back at the nesting it got it. *)
Definition balanced_body (body : Profiler -> M Profiler) : Prop :=
  forall p w p' w',
    wf p -> body p w = Done (p', w') -> extends p p' /\ (w <= w')%nat.

(** The clock is steady from its reading [w0] on: it never runs backwards,
    and the time since that reading fits [std::uint64_t]. *)
Definition steady (E : Platform) (w0 : nat) : Prop :=
  forall j k, (w0 <= j <= k)%nat ->
              steady_clock_now E j <= steady_clock_now E k /\
              steady_clock_now E k - steady_clock_now E w0 <= SIZE_MAX.

(** The elapsed time of [p] does not decrease from the reading [w] on. *)
Definition time_flows (E : Platform) (p : Profiler) (w : nat) : Prop :=
  forall j k, (w <= j <= k)%nat -> elapsed E p j <= elapsed E p k.

(** The records written between [p] at reading [w] and [p'] at reading
    [w']: each is closed within that time, lies in the window of its parent
    when the parent is one of them, and begins after the end of every
    earlier record with the same parent. *)
Definition windows_nest (E : Platform) (p : Profiler) (w : nat)
    (p' : Profiler) (w' : nat) : Prop :=
  (forall i s,
      SampleCount p <= i < SampleCount p' ->
      SamplePool p' !! Z.to_nat i = Some s ->
      elapsed E p w <= BeginNanoseconds s /\
      BeginNanoseconds s <= EndNanoseconds s /\
      EndNanoseconds s <= elapsed E p w' /\
      (Parent s = CurrentSample p \/
       SampleCount p <= Parent s < i /\
       exists s', SamplePool p' !! Z.to_nat (Parent s) = Some s' /\
                  BeginNanoseconds s' <= BeginNanoseconds s /\
                  EndNanoseconds s <= EndNanoseconds s')) /\
  (forall i j s t,
      SampleCount p <= i < j -> j < SampleCount p' ->
      SamplePool p' !! Z.to_nat i = Some s ->
      SamplePool p' !! Z.to_nat j = Some t ->
      Parent s = Parent t ->
      EndNanoseconds s <= BeginNanoseconds t).

(** Code that keeps the nesting and, under a steady clock, writes records
    whose windows nest. *)
Definition timed_body (E : Platform) (body : Profiler -> M Profiler) : Prop :=
  forall p w p' w',
    wf p -> time_flows E p w -> body p w = Done (p', w') ->
    extends p p' /\ (w <= w')%nat /\ windows_nest E p w p' w'.

(** The begin times of the records are in pool order and none is later
    than the elapsed time at the reading [w]. *)
Definition begins_sorted (E : Platform) (p : Profiler) (w : nat) : Prop :=
  (forall i j s t,
      0 <= i -> i <= j -> j < SampleCount p ->
      SamplePool p !! Z.to_nat i = Some s ->
      SamplePool p !! Z.to_nat j = Some t ->
      BeginNanoseconds s <= BeginNanoseconds t) /\
  (forall i s,
      0 <= i < SampleCount p ->
      SamplePool p !! Z.to_nat i = Some s ->
      BeginNanoseconds s <= elapsed E p w).

(** * Properties *)

(** ** Running the monad *)

Lemma bind_Done {A B} (m : M A) (k : A -> M B) w a w' :
  m w = Done (a, w') -> bind m k w = k a w'.
Proof. intros H. unfold bind. rewrite H. reflexivity. Qed.

Lemma bind_Crash {A B} (m : M A) (k : A -> M B) w f :
  m w = Crash f -> bind m k w = Crash f.
Proof. intros H. unfold bind. rewrite H. reflexivity. Qed.

Lemma bind_inv {A B} (m : M A) (k : A -> M B) w r :
  bind m k w = Done r ->
  exists a w', m w = Done (a, w') /\ k a w' = Done r.
Proof.
  unfold bind. destruct (m w) as [[a w']|f]; [eauto | discriminate].
Qed.

Lemma ret_inv {A} (a b : A) w w' : ret a w = Done (b, w') -> b = a /\ w' = w.
Proof. unfold ret. intros H. injection H as <- <-. auto. Qed.

Lemma int64_add_Done a b w :
  INT64_MIN <= a + b <= INT64_MAX -> int64_add a b w = Done (a + b, w).
Proof.
  intros Hr. unfold int64_add, in_int64.
  destruct (Z.leb_spec INT64_MIN (a + b)); [| lia].
  destruct (Z.leb_spec (a + b) INT64_MAX); [| lia].
  reflexivity.
Qed.

Lemma int64_add_inv a b w r w' :
  int64_add a b w = Done (r, w') -> r = a + b /\ w' = w.
Proof.
  unfold int64_add. destruct (in_int64 (a + b)); [apply ret_inv | discriminate].
Qed.

Lemma int64_mul_Done a b w :
  INT64_MIN <= a * b <= INT64_MAX -> int64_mul a b w = Done (a * b, w).
Proof.
  intros Hr. unfold int64_mul, in_int64.
  destruct (Z.leb_spec INT64_MIN (a * b)); [| lia].
  destruct (Z.leb_spec (a * b) INT64_MAX); [| lia].
  reflexivity.
Qed.

Lemma int64_mul_inv a b w r w' :
  int64_mul a b w = Done (r, w') -> r = a * b /\ w' = w.
Proof.
  unfold int64_mul. destruct (in_int64 (a * b)); [apply ret_inv | discriminate].
Qed.

Lemma subscript_Done pool i s w :
  0 <= i -> pool !! Z.to_nat i = Some s -> subscript pool i w = Done (s, w).
Proof.
  intros Hi Hs. unfold subscript.
  destruct (Z.leb_spec 0 i); [| lia]. rewrite Hs. reflexivity.
Qed.

Lemma subscript_inv pool i s w w' :
  subscript pool i w = Done (s, w') ->
  0 <= i /\ pool !! Z.to_nat i = Some s /\ w' = w.
Proof.
  unfold subscript. destruct (Z.leb_spec 0 i); [| discriminate].
  destruct (pool !! Z.to_nat i) as [s'|] eqn:Hs; [| discriminate].
  intros Hr. apply ret_inv in Hr as [-> ->]. auto.
Qed.

Lemma subscript_outside pool i w :
  i < 0 \/ Z.of_nat (length pool) <= i -> subscript pool i w = Crash OutOfBounds.
Proof.
  intros Hr. unfold subscript. destruct (Z.leb_spec 0 i); [| reflexivity].
  rewrite lookup_ge_None_2; [reflexivity | lia].
Qed.

Lemma lookup_store_eq pool i s :
  0 <= i < Z.of_nat (length pool) -> store pool i s !! Z.to_nat i = Some s.
Proof. intros H. unfold store. apply list_lookup_insert_eq. lia. Qed.

Lemma lookup_store_ne pool i s (j : nat) :
  j <> Z.to_nat i -> store pool i s !! j = pool !! j.
Proof. intros H. unfold store. apply list_lookup_insert_ne. congruence. Qed.

Lemma length_store pool i s : length (store pool i s) = length pool.
Proof. unfold store. apply length_insert. Qed.

Lemma to_uint64_small z : 0 <= z <= SIZE_MAX -> to_uint64 z = z.
Proof. unfold to_uint64, SIZE_MAX. intros H. apply Z.mod_small. lia. Qed.


Lemma memcpy_inv dst src nbytes w r w' :
  memcpy dst src nbytes w = Done (r, w') ->
  let n := Z.to_nat (nbytes / sizeof_Sample) in
  r = take n src ++ drop n dst /\ (n <= length src)%nat /\ (n <= length dst)%nat
  /\ w' = w.
Proof.
  unfold memcpy. cbv zeta.
  destruct (Nat.leb_spec (Z.to_nat (nbytes / sizeof_Sample)) (length src));
    [| discriminate].
  destruct (Nat.leb_spec (Z.to_nat (nbytes / sizeof_Sample)) (length dst));
    [| discriminate].
  cbn [andb]. intros Hr. apply ret_inv in Hr as [-> ->]. auto.
Qed.

Lemma memcpy_Done dst src nbytes w :
  (Z.to_nat (nbytes / sizeof_Sample) <= length src)%nat ->
  (Z.to_nat (nbytes / sizeof_Sample) <= length dst)%nat ->
  memcpy dst src nbytes w =
  Done (take (Z.to_nat (nbytes / sizeof_Sample)) src
          ++ drop (Z.to_nat (nbytes / sizeof_Sample)) dst, w).
Proof.
  intros H1 H2. unfold memcpy.
  destruct (Nat.leb_spec (Z.to_nat (nbytes / sizeof_Sample)) (length src));
    [| lia].
  destruct (Nat.leb_spec (Z.to_nat (nbytes / sizeof_Sample)) (length dst));
    [| lia].
  reflexivity.
Qed.

(** ** Chains of parents *)

Lemma steps_to_top_level_mono fuel fuel' pool i d :
  steps_to_top_level fuel pool i = Some d ->
  (fuel <= fuel')%nat ->
  steps_to_top_level fuel' pool i = Some d.
Proof.
  revert fuel' i d. induction fuel as [|fuel IH]; intros fuel' i d H Hle;
    [discriminate |].
  destruct fuel' as [|fuel']; [lia |].
  cbn [steps_to_top_level] in *.
  destruct (0 <=? i); [| discriminate].
  destruct (pool !! Z.to_nat i) as [s|]; [| discriminate].
  destruct (Parent s =? -1); [exact H |].
  destruct (steps_to_top_level fuel pool (Parent s)) as [d'|] eqn:Hd';
    [| discriminate].
  rewrite (IH fuel' (Parent s) d' Hd') by lia. exact H.
Qed.

(** The chain from [i] only reads the parents of the records up to [i]. *)
Lemma steps_to_top_level_agree fuel pool pool' i :
  (forall j s, 0 <= j <= i -> pool !! Z.to_nat j = Some s -> Parent s < j) ->
  (forall j : nat, Z.of_nat j <= i -> Parent <$> pool' !! j = Parent <$> pool !! j) ->
  steps_to_top_level fuel pool' i = steps_to_top_level fuel pool i.
Proof.
  revert i. induction fuel as [|fuel IH]; intros i Hdec Hagree; [reflexivity |].
  cbn [steps_to_top_level].
  destruct (Z.leb_spec 0 i) as [Hi|]; [| reflexivity].
  pose proof (Hagree (Z.to_nat i) ltac:(lia)) as Hat.
  destruct (pool' !! Z.to_nat i) as [s'|], (pool !! Z.to_nat i) as [s|] eqn:Hs;
    cbn in Hat; try discriminate; [| reflexivity].
  injection Hat as ->.
  destruct (Parent s =? -1); [reflexivity |].
  rewrite IH; [reflexivity | |].
  - intros j s2 Hj. apply Hdec. pose proof (Hdec i s ltac:(lia) Hs). lia.
  - intros j Hj. apply Hagree. pose proof (Hdec i s ltac:(lia) Hs). lia.
Qed.

Section RecorderFacts.

Variable E : Platform.

Lemma ElapsedNanoseconds_eq p w :
  ElapsedNanoseconds E p w = Done (elapsed E p w, S w).
Proof. reflexivity. Qed.

Lemma grants_spec n :
  grants E n = true <->
  0 <= n /\ n * sizeof_Sample <= SIZE_MAX /\ n <= heap_limit E.
Proof. unfold grants. rewrite !andb_true_iff, !Z.leb_le. tauto. Qed.

Lemma grants_le n m : grants E n = true -> 0 <= m <= n -> grants E m = true.
Proof. rewrite !grants_spec. unfold sizeof_Sample. lia. Qed.

Lemma new_Sample_array_inv n w pool w' :
  new_Sample_array E n w = Done (pool, w') ->
  grants E n = true /\ length pool = Z.to_nat n /\ w' = w.
Proof.
  unfold new_Sample_array. destruct (grants E n); [| discriminate].
  intros H. apply ret_inv in H as [-> ->].
  rewrite length_map, length_seq. auto.
Qed.

Lemma new_Sample_array_Done n w :
  grants E n = true ->
  exists pool, new_Sample_array E n w = Done (pool, w) /\ length pool = Z.to_nat n.
Proof.
  intros H. unfold new_Sample_array. rewrite H. eexists. split; [reflexivity |].
  rewrite length_map, length_seq. reflexivity.
Qed.

(** *** The reallocation branch *)

Lemma ReallocateSamplePool_inv p w p' w' :
  ReallocateSamplePool E p w = Done (p', w') ->
  let n := Z.to_nat (to_uint64 (SampleCapacity p * sizeof_Sample) / sizeof_Sample) in
  CurrentSample p' = CurrentSample p /\
  SampleCount p' = SampleCount p + 1 /\
  SampleCapacity p' = SampleCapacity p * 2 /\
  ClockStart p' = ClockStart p /\
  w' = S (S w) /\
  grants E (SampleCapacity p * 2) = true /\
  length (SamplePool p') = Z.to_nat (SampleCapacity p * 2) /\
  (n <= length (SamplePool p))%nat /\
  0 <= SampleCount p < Z.of_nat (length (SamplePool p')) /\
  SamplePool p' !! Z.to_nat (SampleCount p) =
    Some {| Parent := CurrentSample p;
            BeginNanoseconds := elapsed E p w;
            EndNanoseconds := elapsed E p (S w);
            Name := ReallocateSamplePool_name |} /\
  (forall j : nat, (j < n)%nat -> j <> Z.to_nat (SampleCount p) ->
                   SamplePool p' !! j = SamplePool p !! j).
Proof.
  unfold ReallocateSamplePool. intros H.
  apply bind_inv in H as (b & w1 & Hb & H).
  rewrite ElapsedNanoseconds_eq in Hb. injection Hb as <- <-.
  apply bind_inv in H as (c2 & w2 & Hc & H).
  apply int64_mul_inv in Hc as [-> ->].
  apply bind_inv in H as (fresh & w3 & Hf & H).
  apply new_Sample_array_inv in Hf as (Hg & Hlen & ->).
  apply bind_inv in H as (copied & w4 & Hm & H).
  apply memcpy_inv in Hm as (-> & Hsrc & Hdst & ->).
  apply bind_inv in H as (e & w5 & He & H).
  rewrite ElapsedNanoseconds_eq in He. injection He as <- <-.
  apply bind_inv in H as (s & w6 & Hs & H).
  apply subscript_inv in Hs as (Hc0 & Hs & ->).
  apply bind_inv in H as (c & w7 & Hc & H).
  apply int64_add_inv in Hc as [-> ->].
  apply ret_inv in H as [-> ->]. cbn [CurrentSample SampleCount SampleCapacity
    ClockStart SamplePool].
  set (n := Z.to_nat (to_uint64 (SampleCapacity p * sizeof_Sample) / sizeof_Sample)) in *.
  assert (Hcl : length (take n (SamplePool p) ++ drop n fresh)
                = Z.to_nat (SampleCapacity p * 2)).
  { rewrite length_app, length_take, length_drop. lia. }
  apply lookup_lt_Some in Hs.
  repeat split; try reflexivity; try assumption; try lia.
  - rewrite length_store. exact Hcl.
  - rewrite length_store. lia.
  - apply lookup_store_eq. lia.
  - intros j Hj Hne. rewrite lookup_store_ne by exact Hne.
    rewrite lookup_app_l by (rewrite length_take; lia).
    apply lookup_take_lt. exact Hj.
Qed.

(** *** [BeginSample] *)

Lemma triggers_growth_true p :
  triggers_growth p = true <-> SampleCapacity p <= SampleCount p + 2.
Proof. unfold triggers_growth. rewrite Z.geb_leb, Z.leb_le. lia. Qed.

Lemma triggers_growth_false p :
  triggers_growth p = false <-> SampleCount p + 2 < SampleCapacity p.
Proof. unfold triggers_growth. rewrite Z.geb_leb, Z.leb_gt. lia. Qed.

Lemma BeginSample_inv name p w p' w' :
  BeginSample E name p w = Done (p', w') ->
  exists s0,
    0 <= SampleCount p /\
    SamplePool p !! Z.to_nat (SampleCount p) = Some s0 /\
    let p1 :=
      {| SamplePool :=
           store (SamplePool p) (SampleCount p)
             {| Parent := CurrentSample p;
                BeginNanoseconds := elapsed E p w;
                EndNanoseconds := EndNanoseconds s0;
                Name := name |};
         SampleCount := SampleCount p + 1;
         CurrentSample := SampleCount p;
         SampleCapacity := SampleCapacity p;
         ClockStart := ClockStart p |} in
    if triggers_growth p
    then ReallocateSamplePool E p1 (S w) = Done (p', w')
    else p' = p1 /\ w' = S w.
Proof.
  unfold BeginSample. intros H.
  apply bind_inv in H as (s0 & w1 & Hs & H).
  apply subscript_inv in Hs as (Hc0 & Hs & ->).
  apply bind_inv in H as (t & w2 & Ht & H).
  rewrite ElapsedNanoseconds_eq in Ht. injection Ht as <- <-.
  apply bind_inv in H as (c & w3 & Hc & H).
  apply int64_add_inv in Hc as [-> ->].
  cbv zeta in H. cbn [SampleCount SampleCapacity] in H.
  apply bind_inv in H as (c & w4 & Hc & H).
  apply int64_add_inv in Hc as [-> ->].
  exists s0. split; [exact Hc0 |]. split; [exact Hs |].
  cbv zeta. unfold triggers_growth.
  destruct (SampleCount p + 1 + 1 >=? SampleCapacity p).
  - exact H.
  - apply ret_inv in H as [-> ->]. auto.
Qed.

Lemma wf_capacity p : wf p -> 2 <= SampleCapacity p.
Proof. intros [? ? ? ? ? ?]. lia. Qed.

Lemma wf_copied_whole p :
  wf p ->
  Z.to_nat (to_uint64 (SampleCapacity p * sizeof_Sample) / sizeof_Sample)
  = length (SamplePool p).
Proof.
  intros Hwf. pose proof (wf_capacity p Hwf) as Hc. destruct Hwf as [Hl Ha _ _ _ _].
  rewrite to_uint64_small by (unfold sizeof_Sample in *; lia).
  unfold sizeof_Sample. rewrite Z.div_mul by lia. lia.
Qed.

Lemma BeginSample_facts name p w p' w' :
  wf p ->
  BeginSample E name p w = Done (p', w') ->
  exists s0,
    SamplePool p !! Z.to_nat (SampleCount p) = Some s0 /\
    CurrentSample p' = SampleCount p /\
    ClockStart p' = ClockStart p /\
    SamplePool p' !! Z.to_nat (SampleCount p) =
      Some {| Parent := CurrentSample p;
              BeginNanoseconds := elapsed E p w;
              EndNanoseconds := EndNanoseconds s0;
              Name := name |} /\
    (forall j : nat,
        Z.of_nat j < SampleCapacity p ->
        j <> Z.to_nat (SampleCount p) -> j <> Z.to_nat (SampleCount p + 1) ->
        SamplePool p' !! j = SamplePool p !! j) /\
    Z.of_nat (length (SamplePool p')) = SampleCapacity p' /\
    if triggers_growth p
    then SampleCount p' = SampleCount p + 2 /\
         SampleCapacity p' = SampleCapacity p * 2 /\
         w' = S (S (S w)) /\
         grants E (SampleCapacity p * 2) = true /\
         SamplePool p' !! Z.to_nat (SampleCount p + 1) =
           Some {| Parent := SampleCount p;
                   BeginNanoseconds := elapsed E p (S w);
                   EndNanoseconds := elapsed E p (S (S w));
                   Name := ReallocateSamplePool_name |}
    else SampleCount p' = SampleCount p + 1 /\
         SampleCapacity p' = SampleCapacity p /\
         w' = S w /\
         SamplePool p' !! Z.to_nat (SampleCount p + 1) =
           SamplePool p !! Z.to_nat (SampleCount p + 1).
Proof.
  intros Hwf H. pose proof (wf_copied_whole p Hwf) as Hn.
  pose proof (wf_capacity p Hwf) as Hcap.
  destruct Hwf as [Hl Ha Hc Hf Hcur Hpar].
  apply BeginSample_inv in H as (s0 & _ & Hs0 & H). cbv zeta in H.
  exists s0. split; [exact Hs0 |].
  destruct (triggers_growth p) eqn:Hg.
  - apply ReallocateSamplePool_inv in H. cbv zeta in H.
    cbn [SamplePool SampleCount CurrentSample SampleCapacity ClockStart] in H.
    rewrite length_store in H. rewrite Hn in H.
    destruct H as (Hcur' & Hcnt' & Hcap' & Hst' & -> & Hgr & Hlen' & _ & _ & Hmk & Hold).
    assert (Hne : Z.to_nat (SampleCount p) <> Z.to_nat (SampleCount p + 1)) by lia.
    repeat split; try assumption; try lia.
    + rewrite Hold by lia. apply lookup_store_eq. lia.
    + intros j Hj H1 H2. rewrite Hold by lia. apply lookup_store_ne. exact H1.
  - destruct H as [-> ->].
    cbn [SamplePool SampleCount CurrentSample SampleCapacity ClockStart].
    repeat split; try reflexivity.
    + apply lookup_store_eq. lia.
    + intros j Hj H1 H2. apply lookup_store_ne. exact H1.
    + rewrite length_store. exact Hl.
    + apply lookup_store_ne. lia.
Qed.

Lemma BeginSample_wf name p w p' w' :
  wf p -> BeginSample E name p w = Done (p', w') -> wf p'.
Proof.
  intros Hwf H. pose proof (wf_capacity p Hwf) as Hcap.
  destruct (BeginSample_facts name p w p' w' Hwf H)
    as (s0 & Hs0 & Hcur' & _ & Htrig & Hold & Hlen' & Hg).
  destruct Hwf as [Hl Ha Hc Hf Hcur Hpar].
  assert (Hparent : forall n i s,
             SampleCount p' = SampleCount p + n -> 1 <= n <= 2 ->
             (n = 2 ->
              SamplePool p' !! Z.to_nat (SampleCount p + 1) =
              Some {| Parent := SampleCount p;
                      BeginNanoseconds := elapsed E p (S w);
                      EndNanoseconds := elapsed E p (S (S w));
                      Name := ReallocateSamplePool_name |}) ->
             0 <= i < SampleCount p' ->
             SamplePool p' !! Z.to_nat i = Some s -> -1 <= Parent s < i).
  { intros n i s Hn Hn12 Hmk Hi Hs.
    destruct (Z.eq_dec i (SampleCount p)) as [-> | Hne1].
    - rewrite Htrig in Hs. injection Hs as <-. cbn. lia.
    - destruct (Z.eq_dec i (SampleCount p + 1)) as [-> | Hne2].
      + rewrite Hmk in Hs by lia. injection Hs as <-. cbn. lia.
      + rewrite Hold in Hs by lia. apply (Hpar i s); [lia | exact Hs]. }
  destruct (triggers_growth p) eqn:Htg.
  - destruct Hg as (Hcnt & Hcp & _ & Hgr & Hmk).
    apply grants_spec in Hgr.
    constructor; try lia.
    intros i s. apply (Hparent 2); auto; lia.
  - destruct Hg as (Hcnt & Hcp & _ & _).
    apply triggers_growth_false in Htg.
    constructor; try lia.
    intros i s. apply (Hparent 1); auto; lia.
Qed.

(** [BeginSample] returns on a well-formed state whenever the heap serves
    the reallocation it may need. *)
Lemma BeginSample_Done name p w :
  wf p ->
  (triggers_growth p = true -> grants E (SampleCapacity p * 2) = true) ->
  exists p' w', BeginSample E name p w = Done (p', w').
Proof.
  intros Hwf Hheap. pose proof (wf_copied_whole p Hwf) as Hn.
  pose proof (wf_capacity p Hwf) as Hcap.
  destruct Hwf as [Hl Ha Hc Hf Hcur Hpar].
  assert (Hbig : SampleCapacity p <= 2 ^ 59).
  { unfold sizeof_Sample, SIZE_MAX in Ha. lia. }
  destruct (lookup_lt_is_Some_2 (SamplePool p) (Z.to_nat (SampleCount p)))
    as [s0 Hs0]; [lia |].
  unfold BeginSample.
  rewrite (bind_Done _ _ _ _ _ (subscript_Done _ _ _ w Hc Hs0)).
  rewrite (bind_Done _ _ _ _ _ (ElapsedNanoseconds_eq p w)).
  rewrite (bind_Done _ _ _ _ _ (int64_add_Done (SampleCount p) 1 (S w)
             ltac:(unfold INT64_MIN, INT64_MAX; lia))).
  cbv zeta. cbn [SampleCount SampleCapacity].
  rewrite (bind_Done _ _ _ _ _ (int64_add_Done (SampleCount p + 1) 1 (S w)
             ltac:(unfold INT64_MIN, INT64_MAX; lia))).
  change (SampleCount p + 1 + 1 >=? SampleCapacity p) with (triggers_growth p).
  destruct (triggers_growth p) eqn:Htg; [| eauto].
  specialize (Hheap eq_refl).
  unfold ReallocateSamplePool.
  cbn [SampleCount SampleCapacity SamplePool CurrentSample ClockStart].
  rewrite (bind_Done _ _ _ _ _ (ElapsedNanoseconds_eq _ (S w))).
  rewrite (bind_Done _ _ _ _ _ (int64_mul_Done (SampleCapacity p) 2 (S (S w))
             ltac:(unfold INT64_MIN, INT64_MAX; lia))).
  destruct (new_Sample_array_Done (SampleCapacity p * 2) (S (S w)) Hheap)
    as (fresh & Hfresh & Hflen).
  rewrite (bind_Done _ _ _ _ _ Hfresh).
  erewrite bind_Done; cycle 1.
  { apply memcpy_Done; rewrite Hn; [rewrite length_store |]; lia. }
  rewrite Hn.
  rewrite (bind_Done _ _ _ _ _ (ElapsedNanoseconds_eq _ (S (S w)))).
  match goal with
  | |- context [subscript ?l ?i] =>
      destruct (lookup_lt_is_Some_2 l (Z.to_nat i)) as [s1 Hs1]
  end.
  { rewrite length_app, length_take, length_drop, length_store. lia. }
  erewrite bind_Done; [| apply subscript_Done; [lia | exact Hs1]].
  rewrite (bind_Done _ _ _ _ _ (int64_add_Done (SampleCount p + 1) 1 (S (S (S w)))
             ltac:(unfold INT64_MIN, INT64_MAX; lia))).
  eauto.
Qed.

(** *** [EndSample] *)

Lemma EndSample_inv p w p' w' :
  EndSample E p w = Done (p', w') ->
  exists s,
    0 <= CurrentSample p /\
    SamplePool p !! Z.to_nat (CurrentSample p) = Some s /\
    w' = S w /\
    p' = {| SamplePool :=
              store (SamplePool p) (CurrentSample p)
                {| Parent := Parent s;
                   BeginNanoseconds := BeginNanoseconds s;
                   EndNanoseconds := elapsed E p w;
                   Name := Name s |};
            SampleCount := SampleCount p;
            CurrentSample := Parent s;
            SampleCapacity := SampleCapacity p;
            ClockStart := ClockStart p |}.
Proof.
  unfold EndSample. intros H.
  apply bind_inv in H as (t & w1 & Ht & H).
  rewrite ElapsedNanoseconds_eq in Ht. injection Ht as <- <-.
  apply bind_inv in H as (s & w2 & Hs & H).
  apply subscript_inv in Hs as (Hc0 & Hs & ->).
  apply ret_inv in H as [-> ->]. exists s. auto.
Qed.

Lemma EndSample_Done p w s :
  0 <= CurrentSample p ->
  SamplePool p !! Z.to_nat (CurrentSample p) = Some s ->
  EndSample E p w =
  Done ({| SamplePool :=
             store (SamplePool p) (CurrentSample p)
               {| Parent := Parent s;
                  BeginNanoseconds := BeginNanoseconds s;
                  EndNanoseconds := elapsed E p w;
                  Name := Name s |};
           SampleCount := SampleCount p;
           CurrentSample := Parent s;
           SampleCapacity := SampleCapacity p;
           ClockStart := ClockStart p |}, S w).
Proof.
  intros Hc Hs. unfold EndSample.
  rewrite (bind_Done _ _ _ _ _ (ElapsedNanoseconds_eq p w)).
  rewrite (bind_Done _ _ _ _ _ (subscript_Done _ _ _ (S w) Hc Hs)).
  reflexivity.
Qed.

Lemma EndSample_no_open_sample p w :
  CurrentSample p < 0 -> EndSample E p w = Crash OutOfBounds.
Proof.
  intros Hc. unfold EndSample.
  rewrite (bind_Done _ _ _ _ _ (ElapsedNanoseconds_eq p w)).
  apply bind_Crash. apply subscript_outside. auto.
Qed.

Lemma EndSample_wf p w p' w' :
  wf p -> EndSample E p w = Done (p', w') -> wf p'.
Proof.
  intros [Hl Ha Hc Hf Hcur Hpar] H.
  apply EndSample_inv in H as (s & Hc0 & Hs & -> & ->).
  assert (Hps : -1 <= Parent s < CurrentSample p).
  { apply (Hpar (CurrentSample p) s); [lia | exact Hs]. }
  constructor; cbn [SamplePool SampleCount CurrentSample SampleCapacity ClockStart];
    try lia.
  - rewrite length_store. exact Hl.
  - intros i s' Hi Hs'.
    destruct (Z.eq_dec i (CurrentSample p)) as [-> | Hne].
    + rewrite lookup_store_eq in Hs' by lia. injection Hs' as <-. cbn. exact Hps.
    + rewrite lookup_store_ne in Hs' by lia. apply (Hpar i s'); assumption.
Qed.

(** *** Construction and reachable states *)

Lemma new_Profiler_inv initialCapacity w p w' :
  new_Profiler E initialCapacity w = Done (p, w') ->
  SampleCount p = 0 /\ CurrentSample p = -1 /\
  SampleCapacity p = Z.max 2 initialCapacity /\
  ClockStart p = steady_clock_now E w /\
  Z.of_nat (length (SamplePool p)) = SampleCapacity p /\
  grants E (Z.max 2 initialCapacity) = true /\
  w' = S w.
Proof.
  unfold new_Profiler. cbv zeta.
  replace (if initialCapacity <? 2 then 2 else initialCapacity)
    with (Z.max 2 initialCapacity)
    by (destruct (Z.ltb_spec initialCapacity 2); lia).
  intros H.
  apply bind_inv in H as (pool & w1 & Hp & H).
  apply new_Sample_array_inv in Hp as (Hg & Hlen & ->).
  apply bind_inv in H as (t & w2 & Ht & H).
  injection Ht as <- <-.
  apply ret_inv in H as [-> ->]. cbn. repeat split; try assumption; lia.
Qed.

Lemma new_Profiler_Done initialCapacity w :
  grants E (Z.max 2 initialCapacity) = true ->
  exists p, new_Profiler E initialCapacity w = Done (p, S w).
Proof.
  intros Hg. unfold new_Profiler. cbv zeta.
  replace (if initialCapacity <? 2 then 2 else initialCapacity)
    with (Z.max 2 initialCapacity)
    by (destruct (Z.ltb_spec initialCapacity 2); lia).
  destruct (new_Sample_array_Done (Z.max 2 initialCapacity) w Hg) as (pool & Hp & _).
  rewrite (bind_Done _ _ _ _ _ Hp). eexists. reflexivity.
Qed.

Lemma new_Profiler_wf initialCapacity w p w' :
  new_Profiler E initialCapacity w = Done (p, w') -> wf p.
Proof.
  intros H. apply new_Profiler_inv in H
    as (Hc & Hcur & Hcap & _ & Hlen & Hg & _).
  apply grants_spec in Hg.
  constructor; try lia.
Qed.

Lemma call_wf c p w p' w' : wf p -> call E c p w = Done (p', w') -> wf p'.
Proof.
  destruct c as [name|]; cbn [call]; [apply BeginSample_wf | apply EndSample_wf].
Qed.

Lemma reachable_wf p : reachable E p -> wf p.
Proof.
  induction 1 as [c0 w p w' H | c p w p' w' _ IH H].
  - eapply new_Profiler_wf; eassumption.
  - eapply call_wf; eassumption.
Qed.

Lemma BeginSample_cases name p w :
  wf p ->
  (exists p' w', BeginSample E name p w = Done (p', w')) \/
  (triggers_growth p = true /\ BeginSample E name p w = Crash BadAlloc).
Proof.
  intros Hwf.
  destruct (triggers_growth p) eqn:Htg;
    [| left; apply BeginSample_Done; [exact Hwf | congruence]].
  destruct (grants E (SampleCapacity p * 2)) eqn:Hg;
    [left; apply BeginSample_Done; auto |].
  right. split; [reflexivity |].
  pose proof (wf_capacity p Hwf) as Hcap.
  destruct Hwf as [Hl Ha Hc Hf Hcur Hpar].
  assert (Hbig : SampleCapacity p <= 2 ^ 59).
  { unfold sizeof_Sample, SIZE_MAX in Ha. lia. }
  destruct (lookup_lt_is_Some_2 (SamplePool p) (Z.to_nat (SampleCount p)))
    as [s0 Hs0]; [lia |].
  unfold BeginSample.
  rewrite (bind_Done _ _ _ _ _ (subscript_Done _ _ _ w Hc Hs0)).
  rewrite (bind_Done _ _ _ _ _ (ElapsedNanoseconds_eq p w)).
  rewrite (bind_Done _ _ _ _ _ (int64_add_Done (SampleCount p) 1 (S w)
             ltac:(unfold INT64_MIN, INT64_MAX; lia))).
  cbv zeta. cbn [SampleCount SampleCapacity].
  rewrite (bind_Done _ _ _ _ _ (int64_add_Done (SampleCount p + 1) 1 (S w)
             ltac:(unfold INT64_MIN, INT64_MAX; lia))).
  change (SampleCount p + 1 + 1 >=? SampleCapacity p) with (triggers_growth p).
  rewrite Htg. unfold ReallocateSamplePool.
  cbn [SampleCount SampleCapacity SamplePool CurrentSample ClockStart].
  rewrite (bind_Done _ _ _ _ _ (ElapsedNanoseconds_eq _ (S w))).
  rewrite (bind_Done _ _ _ _ _ (int64_mul_Done (SampleCapacity p) 2 (S (S w))
             ltac:(unfold INT64_MIN, INT64_MAX; lia))).
  apply bind_Crash. unfold new_Sample_array. rewrite Hg. reflexivity.
Qed.

(** ** The claims on single calls *)

(** C1, as amended.  When [BeginSample] reallocates, the record of the
    reallocation is written as a child of the sample being opened: its
    parent is the index of that sample, which is also the new
    [CurrentSample]; the sample being opened has the former
    [CurrentSample] as its parent. *)
Theorem reallocation_record_is_child name p w p' w' :
  wf p ->
  BeginSample E name p w = Done (p', w') ->
  triggers_growth p = true ->
  exists opened marker,
    SamplePool p' !! Z.to_nat (SampleCount p) = Some opened /\
    Name opened = name /\
    Parent opened = CurrentSample p /\
    SamplePool p' !! Z.to_nat (SampleCount p + 1) = Some marker /\
    Name marker = ReallocateSamplePool_name /\
    Parent marker = SampleCount p /\
    Parent marker = CurrentSample p' /\
    Parent marker <> Parent opened.
Proof.
  intros Hwf H Htg.
  destruct (BeginSample_facts name p w p' w' Hwf H)
    as (s0 & _ & Hcur' & _ & Hop & _ & _ & Hg).
  rewrite Htg in Hg. destruct Hg as (_ & _ & _ & _ & Hmk).
  destruct Hwf as [_ _ _ _ Hcur _].
  do 2 eexists. split; [exact Hop |]. split; [reflexivity |].
  split; [reflexivity |]. split; [exact Hmk |]. split; [reflexivity |].
  cbn. split; [reflexivity |]. split; [congruence | lia].
Qed.

(** C4.  [BeginSample] reallocates exactly when fewer than two slots are
    free once the new sample is appended; the capacity is then doubled and
    one record of the reallocation follows the new sample.  Otherwise the
    capacity stays and the new sample is the only record added. *)
Theorem BeginSample_growth_policy name p w :
  wf p ->
  (triggers_growth p = true -> grants E (SampleCapacity p * 2) = true) ->
  exists p' w',
    BeginSample E name p w = Done (p', w') /\
    (SampleCapacity p - (SampleCount p + 1) < 2 ->
     SampleCapacity p' = 2 * SampleCapacity p /\
     Z.of_nat (length (SamplePool p')) = 2 * SampleCapacity p /\
     SampleCount p' = SampleCount p + 2 /\
     Name <$> SamplePool p' !! Z.to_nat (SampleCount p) = Some name /\
     Name <$> SamplePool p' !! Z.to_nat (SampleCount p + 1)
       = Some ReallocateSamplePool_name) /\
    (2 <= SampleCapacity p - (SampleCount p + 1) ->
     SampleCapacity p' = SampleCapacity p /\
     Z.of_nat (length (SamplePool p')) = SampleCapacity p /\
     SampleCount p' = SampleCount p + 1 /\
     Name <$> SamplePool p' !! Z.to_nat (SampleCount p) = Some name).
Proof.
  intros Hwf Hheap.
  destruct (BeginSample_Done name p w Hwf Hheap) as (p' & w' & H).
  exists p', w'. split; [exact H |].
  destruct (BeginSample_facts name p w p' w' Hwf H)
    as (s0 & _ & _ & _ & Hop & _ & Hlen & Hg).
  destruct (triggers_growth p) eqn:Htg.
  - apply triggers_growth_true in Htg.
    destruct Hg as (Hcnt & Hcap & _ & _ & Hmk).
    split; [intros _ | lia].
    rewrite Hop, Hmk. cbn. repeat split; lia.
  - apply triggers_growth_false in Htg.
    destruct Hg as (Hcnt & Hcap & _ & _).
    split; [lia | intros _].
    rewrite Hop. cbn. repeat split; lia.
Qed.

(** C5.  A call of [BeginSample] that reallocates leaves every record
    written before it as it was, at its index; it adds the sample being
    opened and the record of the reallocation, and nothing else. *)
Theorem growth_preserves_samples name p w p' w' :
  wf p ->
  BeginSample E name p w = Done (p', w') ->
  triggers_growth p = true ->
  (forall i, 0 <= i < SampleCount p ->
             SamplePool p' !! Z.to_nat i = SamplePool p !! Z.to_nat i) /\
  SampleCount p' = SampleCount p + 2 /\
  (exists unset,
      SamplePool p' !! Z.to_nat (SampleCount p) =
      Some {| Parent := CurrentSample p;
              BeginNanoseconds := elapsed E p w;
              EndNanoseconds := unset;
              Name := name |}) /\
  SamplePool p' !! Z.to_nat (SampleCount p + 1) =
    Some {| Parent := SampleCount p;
            BeginNanoseconds := elapsed E p (S w);
            EndNanoseconds := elapsed E p (S (S w));
            Name := ReallocateSamplePool_name |}.
Proof.
  intros Hwf H Htg.
  destruct (BeginSample_facts name p w p' w' Hwf H)
    as (s0 & _ & _ & _ & Hop & Hold & _ & Hg).
  rewrite Htg in Hg. destruct Hg as (Hcnt & _ & _ & _ & Hmk).
  destruct Hwf as [_ _ Hc Hf _ _].
  split; [| split; [exact Hcnt | split; [eauto | exact Hmk]]].
  intros i Hi. apply Hold; lia.
Qed.

(** C8.  With a sample open, [EndSample] writes the elapsed time into the
    [EndNanoseconds] of the record at [CurrentSample], makes the parent of
    that record the current sample and leaves all other records alone.
    With no sample open the subscript is outside the pool: nothing in
    [EndSample] checks it. *)
Theorem EndSample_contract p w :
  wf p ->
  (CurrentSample p <> -1 ->
   exists s p',
     SamplePool p !! Z.to_nat (CurrentSample p) = Some s /\
     EndSample E p w = Done (p', S w) /\
     SamplePool p' !! Z.to_nat (CurrentSample p) =
       Some {| Parent := Parent s;
               BeginNanoseconds := BeginNanoseconds s;
               EndNanoseconds := elapsed E p w;
               Name := Name s |} /\
     CurrentSample p' = Parent s /\
     (forall j : nat, j <> Z.to_nat (CurrentSample p) ->
                      SamplePool p' !! j = SamplePool p !! j) /\
     length (SamplePool p') = length (SamplePool p) /\
     SampleCount p' = SampleCount p /\
     SampleCapacity p' = SampleCapacity p /\
     ClockStart p' = ClockStart p) /\
  (CurrentSample p = -1 -> EndSample E p w = Crash OutOfBounds).
Proof.
  intros [Hl Ha Hc Hf Hcur Hpar]. split.
  - intros Hopen.
    destruct (lookup_lt_is_Some_2 (SamplePool p) (Z.to_nat (CurrentSample p)))
      as [s Hs]; [lia |].
    exists s. eexists. split; [exact Hs |].
    split; [apply EndSample_Done; [lia | exact Hs] |].
    cbn [SamplePool SampleCount CurrentSample SampleCapacity ClockStart].
    repeat split.
    + apply lookup_store_eq. lia.
    + intros j Hj. apply lookup_store_ne. exact Hj.
    + apply length_store.
  - intros Hnone. apply EndSample_no_open_sample. lia.
Qed.

(** C9.  Construction clamps the capacity to at least 2, and in every
    state a program can reach at least two slots of the pool are free;
    hence the subscripts of [BeginSample], at [SampleCount] and at
    [SampleCount + 1], are inside the pool and [BeginSample] never runs
    out of bounds. *)
Theorem two_free_slots p :
  reachable E p ->
  (forall c w q w', new_Profiler E c w = Done (q, w') ->
                    SampleCapacity q = Z.max 2 c /\ SampleCount q = 0) /\
  SampleCount p + 2 <= SampleCapacity p /\
  Z.of_nat (length (SamplePool p)) = SampleCapacity p /\
  0 <= SampleCount p /\
  is_Some (SamplePool p !! Z.to_nat (SampleCount p)) /\
  is_Some (SamplePool p !! Z.to_nat (SampleCount p + 1)) /\
  (forall name w, BeginSample E name p w <> Crash OutOfBounds).
Proof.
  intros Hr. pose proof (reachable_wf p Hr) as Hwf.
  split.
  { intros c w q w' H. apply new_Profiler_inv in H. tauto. }
  pose proof Hwf as [Hl Ha Hc Hf Hcur Hpar].
  repeat split; try assumption.
  - apply lookup_lt_is_Some_2. lia.
  - apply lookup_lt_is_Some_2. lia.
  - intros name w.
    destruct (BeginSample_cases name p w Hwf) as [(p' & w' & H) | [_ H]];
      rewrite H; discriminate.
Qed.

(** Whether or not it reallocates, [BeginSample] leaves the sample it opens
    as the current one, and the [EndSample] that follows closes that sample
    and makes the former current sample current again; the record of a
    reallocation is not touched. *)
Lemma BeginSample_then_EndSample name p w p' w' :
  wf p ->
  BeginSample E name p w = Done (p', w') ->
  CurrentSample p' = SampleCount p /\
  exists p'',
    EndSample E p' w' = Done (p'', S w') /\
    CurrentSample p'' = CurrentSample p /\
    SamplePool p'' !! Z.to_nat (SampleCount p + 1)
    = SamplePool p' !! Z.to_nat (SampleCount p + 1).
Proof.
  intros Hwf H.
  destruct (BeginSample_facts name p w p' w' Hwf H)
    as (s0 & _ & Hcur' & _ & Hop & _ & _ & _).
  destruct Hwf as [_ _ Hc _ _ _].
  split; [exact Hcur' |].
  eexists. split.
  - apply EndSample_Done; rewrite Hcur'; [lia | exact Hop].
  - cbn [CurrentSample SamplePool Parent]. split; [reflexivity |].
    apply lookup_store_ne. rewrite Hcur'. lia.
Qed.

(** C10.  The reallocation branch of [BeginSample] leaves [CurrentSample]
    as it is and writes its record closed: both timestamps are set when
    the record is written.  The record is therefore never the open
    sample. *)
Theorem reallocation_keeps_current p w p' w' :
  ReallocateSamplePool E p w = Done (p', w') ->
  CurrentSample p' = CurrentSample p /\
  SampleCount p' = SampleCount p + 1 /\
  SamplePool p' !! Z.to_nat (SampleCount p) =
    Some {| Parent := CurrentSample p;
            BeginNanoseconds := elapsed E p w;
            EndNanoseconds := elapsed E p (S w);
            Name := ReallocateSamplePool_name |} /\
  (CurrentSample p < SampleCount p -> CurrentSample p' <> SampleCount p).
Proof.
  intros H. apply ReallocateSamplePool_inv in H. cbv zeta in H.
  destruct H as (Hcur & Hcnt & _ & _ & _ & _ & _ & _ & _ & Hmk & _).
  repeat split; try assumption. lia.
Qed.

End RecorderFacts.

(** ** Sessions *)

Section SessionFacts.
Variable E : Platform.

Lemma BeginSample_depth_inv name p open depths w p' w' :
  depth_inv p open depths ->
  BeginSample E name p w = Done (p', w') ->
  depth_inv p' (S open)
    (depths ++ open ::
       (if SampleCapacity p' =? SampleCapacity p then [] else [S open])).
Proof.
  intros (Hwf & Hlen & Hch & Hopen) H.
  pose proof (BeginSample_wf E name p w p' w' Hwf H) as Hwf'.
  pose proof (wf_capacity p Hwf) as Hcap.
  destruct (BeginSample_facts E name p w p' w' Hwf H)
    as (s0 & Hs0 & Hcur' & _ & Hop & Hold & Hlen' & Hg).
  destruct Hwf as [Hl Ha Hc Hf Hcur Hpar].
  assert (HA : forall i fuel, 0 <= i < SampleCount p ->
             steps_to_top_level fuel (SamplePool p') i
             = steps_to_top_level fuel (SamplePool p) i).
  { intros i fuel Hi. apply steps_to_top_level_agree.
    - intros j s Hj Hs. apply (Hpar j s); [lia | exact Hs].
    - intros j Hj. rewrite Hold by lia. reflexivity. }
  assert (HB : steps_to_top_level (S (Z.to_nat (SampleCount p))) (SamplePool p')
                 (SampleCount p) = Some open).
  { cbn [steps_to_top_level].
    destruct (Z.leb_spec 0 (SampleCount p)); [| lia].
    rewrite Hop. cbn [Parent].
    destruct open as [|d].
    - rewrite Hopen. reflexivity.
    - destruct Hopen as [Hc0 Hd].
      destruct (Z.eqb_spec (CurrentSample p) (-1)); [lia |].
      destruct (Hch (CurrentSample p) ltac:(lia)) as (d0 & Hd0 & Hst).
      rewrite Hd in Hd0. injection Hd0 as <-.
      rewrite <- HA in Hst by lia.
      rewrite (steps_to_top_level_mono _ (Z.to_nat (SampleCount p)) _ _ _ Hst)
        by lia.
      reflexivity. }
  split; [exact Hwf' |].
  destruct (triggers_growth p) eqn:Htg.
  - destruct Hg as (Hcnt & Hcp & _ & _ & Hmk).
    destruct (Z.eqb_spec (SampleCapacity p') (SampleCapacity p)); [lia |].
    split; [rewrite length_app; cbn [length]; lia |].
    split.
    + intros i Hi.
      destruct (Z.eq_dec i (SampleCount p + 1)) as [-> | Hne2];
        [| destruct (Z.eq_dec i (SampleCount p)) as [-> | Hne1]].
      * exists (S open). split.
        { rewrite lookup_app_r by lia.
          replace (Z.to_nat (SampleCount p + 1) - length depths)%nat with 1%nat by lia.
          reflexivity. }
        cbn [steps_to_top_level].
        destruct (Z.leb_spec 0 (SampleCount p + 1)); [| lia].
        rewrite Hmk. cbn [Parent].
        destruct (Z.eqb_spec (SampleCount p) (-1)); [lia |].
        replace (Z.to_nat (SampleCount p + 1)) with (S (Z.to_nat (SampleCount p)))
          by lia.
        rewrite HB. reflexivity.
      * exists open. split; [| exact HB].
        rewrite lookup_app_r by lia.
        replace (Z.to_nat (SampleCount p) - length depths)%nat with 0%nat by lia.
        reflexivity.
      * destruct (Hch i ltac:(lia)) as (d & Hd & Hst).
        exists d. rewrite lookup_app_l by lia. rewrite HA by lia. auto.
    + split; [lia |].
      rewrite Hcur'. rewrite lookup_app_r by lia.
      replace (Z.to_nat (SampleCount p) - length depths)%nat with 0%nat by lia.
      reflexivity.
  - destruct Hg as (Hcnt & Hcp & _ & _).
    destruct (Z.eqb_spec (SampleCapacity p') (SampleCapacity p)); [| lia].
    split; [rewrite length_app; cbn [length]; lia |].
    split.
    + intros i Hi.
      destruct (Z.eq_dec i (SampleCount p)) as [-> | Hne1].
      * exists open. split; [| exact HB].
        rewrite lookup_app_r by lia.
        replace (Z.to_nat (SampleCount p) - length depths)%nat with 0%nat by lia.
        reflexivity.
      * destruct (Hch i ltac:(lia)) as (d & Hd & Hst).
        exists d. rewrite lookup_app_l by lia. rewrite HA by lia. auto.
    + split; [lia |].
      rewrite Hcur'. rewrite lookup_app_r by lia.
      replace (Z.to_nat (SampleCount p) - length depths)%nat with 0%nat by lia.
      reflexivity.
Qed.
Lemma EndSample_depth_inv p open depths w p' w' :
  depth_inv p open depths ->
  EndSample E p w = Done (p', w') ->
  depth_inv p' (Nat.pred open) depths.
Proof.
  intros (Hwf & Hlen & Hch & Hopen) H.
  pose proof (EndSample_wf E p w p' w' Hwf H) as Hwf'.
  apply EndSample_inv in H as (s & Hc0 & Hs & -> & ->).
  destruct Hwf as [Hl Ha Hc Hf Hcur Hpar].
  destruct open as [|d]; [lia |]. destruct Hopen as [_ Hd].
  assert (Hps : -1 <= Parent s < CurrentSample p).
  { apply (Hpar (CurrentSample p) s); [lia | exact Hs]. }
  set (pool' := store (SamplePool p) (CurrentSample p) _) in *.
  assert (HA : forall i fuel, 0 <= i < SampleCount p ->
             steps_to_top_level fuel pool' i
             = steps_to_top_level fuel (SamplePool p) i).
  { intros i fuel Hi. apply steps_to_top_level_agree.
    - intros j s' Hj Hs'. apply (Hpar j s'); [lia | exact Hs'].
    - intros j Hj. subst pool'.
      destruct (Nat.eq_dec j (Z.to_nat (CurrentSample p))) as [-> | Hne].
      + rewrite lookup_store_eq by lia. rewrite Hs. reflexivity.
      + rewrite lookup_store_ne by exact Hne. reflexivity. }
  split; [exact Hwf' |]. split; [exact Hlen |].
  cbn [SamplePool SampleCount CurrentSample Nat.pred]. split.
  - intros i Hi. destruct (Hch i Hi) as (d0 & Hd0 & Hst).
    exists d0. rewrite HA by lia. auto.
  - destruct (Hch (CurrentSample p) ltac:(lia)) as (d0 & Hd0 & Hst).
    rewrite Hd in Hd0. injection Hd0 as <-.
    cbn [steps_to_top_level] in Hst.
    destruct (Z.leb_spec 0 (CurrentSample p)); [| lia].
    rewrite Hs in Hst.
    destruct (Z.eqb_spec (Parent s) (-1)) as [Htop | Hnot].
    + injection Hst as <-. exact Htop.
    + destruct (steps_to_top_level (Z.to_nat (CurrentSample p)) (SamplePool p)
                  (Parent s)) as [d1|] eqn:Hd1; [| discriminate].
      injection Hst as <-.
      split; [lia |].
      destruct (Hch (Parent s) ltac:(lia)) as (d2 & Hd2 & Hst2).
      apply (steps_to_top_level_mono _ (Z.to_nat (CurrentSample p))) in Hst2;
        [| lia].
      congruence.
Qed.

Lemma call_depths_inv c p open depths w p' open' depths' w' :
  depth_inv p open depths ->
  call_depths E c p open depths w = Done ((p', open', depths'), w') ->
  depth_inv p' open' depths' /\ call E c p w = Done (p', w').
Proof.
  intros Hinv H. destruct c as [name|]; cbn [call_depths call] in *.
  - apply bind_inv in H as (q & w1 & Hq & H).
    apply ret_inv in H as [[= -> -> ->] ->].
    split; [| exact Hq]. eapply BeginSample_depth_inv; eassumption.
  - apply bind_inv in H as (q & w1 & Hq & H).
    apply ret_inv in H as [[= -> -> ->] ->].
    split; [| exact Hq]. eapply EndSample_depth_inv; eassumption.
Qed.

Lemma calls_depths_inv cs p open depths w p' open' depths' w' :
  depth_inv p open depths ->
  calls_depths E cs p open depths w = Done ((p', open', depths'), w') ->
  depth_inv p' open' depths' /\ calls E cs p w = Done (p', w').
Proof.
  revert p open depths w.
  induction cs as [|c cs IH]; intros p open depths w Hinv H;
    cbn [calls_depths calls] in *.
  - apply ret_inv in H as [[= -> -> ->] ->]. auto.
  - apply bind_inv in H as ([[q o] ds] & w1 & Hq & H). cbn [fst snd] in H.
    destruct (call_depths_inv _ _ _ _ _ _ _ _ _ Hinv Hq) as [Hinv1 Hcall].
    destruct (IH _ _ _ _ Hinv1 H) as [Hinv2 Hcalls].
    split; [exact Hinv2 |].
    rewrite (bind_Done _ _ _ _ _ Hcall). exact Hcalls.
Qed.

(** The number of open samples a completed run counts is the one the
    sequence of calls has by its shape. *)
Lemma calls_depths_nesting cs p open depths w p' open' depths' w' :
  depth_inv p open depths ->
  calls_depths E cs p open depths w = Done ((p', open', depths'), w') ->
  nesting open cs = Some open'.
Proof.
  revert p open depths w.
  induction cs as [|c cs IH]; intros p open depths w Hinv H;
    cbn [calls_depths nesting] in *.
  - apply ret_inv in H as [[= -> -> ->] ->]. reflexivity.
  - apply bind_inv in H as ([[q o] ds] & w1 & Hq & H). cbn [fst snd] in H.
    destruct (call_depths_inv _ _ _ _ _ _ _ _ _ Hinv Hq) as [Hinv1 _].
    specialize (IH _ _ _ _ Hinv1 H).
    destruct c as [name|]; cbn [call_depths] in Hq.
    + apply bind_inv in Hq as (q' & w2 & _ & Hq).
      apply ret_inv in Hq as [[= -> -> ->] ->]. exact IH.
    + apply bind_inv in Hq as (q' & w2 & Hend & Hq).
      apply ret_inv in Hq as [[= -> -> ->] ->].
      apply EndSample_inv in Hend as (s & Hc0 & _).
      destruct Hinv as (_ & _ & _ & Hopen).
      destruct open as [|d]; [lia | exact IH].
Qed.

(** The depths are an annotation: they do not change the run. *)
Lemma calls_depths_of_calls cs p open depths w p' w' n :
  depth_inv p open depths ->
  nesting open cs = Some n ->
  calls E cs p w = Done (p', w') ->
  exists depths', calls_depths E cs p open depths w = Done ((p', n, depths'), w').
Proof.
  revert p open depths w.
  induction cs as [|c cs IH]; intros p open depths w Hinv Hn H;
    cbn [calls_depths calls nesting] in *.
  - apply ret_inv in H as [<- ->]. injection Hn as <-. eexists. reflexivity.
  - apply bind_inv in H as (q & w1 & Hq & H).
    destruct c as [name|]; cbn [call] in Hq.
    + assert (Hcd : call_depths E (Begin name) p open depths w
                    = Done ((q, S open, depths ++ open ::
                             (if SampleCapacity q =? SampleCapacity p
                              then [] else [S open])), w1)).
      { cbn [call_depths]. rewrite (bind_Done _ _ _ _ _ Hq). reflexivity. }
      destruct (call_depths_inv _ _ _ _ _ _ _ _ _ Hinv Hcd) as [Hinv1 _].
      destruct (IH _ _ _ _ Hinv1 Hn H) as (ds & Hds).
      exists ds. rewrite (bind_Done _ _ _ _ _ Hcd). exact Hds.
    + destruct open as [|d]; [discriminate |].
      assert (Hcd : call_depths E End_ p (S d) depths w = Done ((q, d, depths), w1)).
      { cbn [call_depths]. rewrite (bind_Done _ _ _ _ _ Hq). reflexivity. }
      destruct (call_depths_inv _ _ _ _ _ _ _ _ _ Hinv Hcd) as [Hinv1 _].
      destruct (IH _ _ _ _ Hinv1 Hn H) as (ds & Hds).
      exists ds. rewrite (bind_Done _ _ _ _ _ Hcd). exact Hds.
Qed.

Lemma calls_Done cs p open depths w n :
  depth_inv p open depths ->
  nesting open cs = Some n ->
  grants E (2 * SampleCount p + 4 * Z.of_nat (length cs)) = true ->
  exists p' w', calls E cs p w = Done (p', w').
Proof.
  revert p open depths w.
  induction cs as [|c cs IH]; intros p open depths w Hinv Hn Hheap;
    cbn [calls nesting length] in *.
  - eauto.
  - pose proof Hinv as (Hwf & Hlen & Hch & Hopen).
    pose proof (wf_capacity p Hwf) as Hcap.
    pose proof Hwf as [Hl Ha Hc Hf Hcur Hpar].
    destruct c as [name|]; cbn [call].
    + destruct (BeginSample_Done E name p w Hwf) as (q & w1 & Hq).
      { intros Htg. apply triggers_growth_true in Htg.
        apply (grants_le E _ _ Hheap). lia. }
      assert (Hcd : call_depths E (Begin name) p open depths w
                    = Done ((q, S open, depths ++ open ::
                             (if SampleCapacity q =? SampleCapacity p
                              then [] else [S open])), w1)).
      { cbn [call_depths]. rewrite (bind_Done _ _ _ _ _ Hq). reflexivity. }
      destruct (call_depths_inv _ _ _ _ _ _ _ _ _ Hinv Hcd) as [Hinv1 _].
      rewrite (bind_Done _ _ _ _ _ Hq).
      apply (IH _ _ _ _ Hinv1 Hn).
      apply (grants_le E _ _ Hheap).
      destruct (BeginSample_facts E name p w q w1 Hwf Hq)
        as (_ & _ & _ & _ & _ & _ & _ & Hg).
      destruct (triggers_growth p); lia.
    + destruct open as [|d]; [discriminate |]. destruct Hopen as [Hc0 Hd].
      destruct (lookup_lt_is_Some_2 (SamplePool p) (Z.to_nat (CurrentSample p)))
        as [s Hs]; [lia |].
      pose proof (EndSample_Done E p w s Hc0 Hs) as Hq.
      match type of Hq with _ = Done (?r, _) => set (q := r) in * end.
      assert (Hcd : call_depths E End_ p (S d) depths w
                    = Done ((q, d, depths), S w)).
      { cbn [call_depths]. rewrite (bind_Done _ _ _ _ _ Hq). reflexivity. }
      destruct (call_depths_inv _ _ _ _ _ _ _ _ _ Hinv Hcd) as [Hinv1 _].
      rewrite (bind_Done _ _ _ _ _ Hq).
      apply (IH _ _ _ _ Hinv1 Hn).
      apply (grants_le E _ _ Hheap). subst q. cbn [SampleCount]. lia.
Qed.

Lemma new_Profiler_depth_inv c w p w' :
  new_Profiler E c w = Done (p, w') -> depth_inv p 0 [].
Proof.
  intros H. pose proof (new_Profiler_wf E c w p w' H) as Hwf.
  apply new_Profiler_inv in H as (Hc & Hcur & _).
  split; [exact Hwf |]. split; [cbn; lia |]. split; [intros i Hi; lia | exact Hcur].
Qed.

(** ** The claims on sequences of calls *)

(** C2.  A well-nested sequence of calls on a fresh recorder runs to its
    end whenever the heap serves the pool (at most four slots per call are
    ever requested), and every such run ends with no sample open:
    [CurrentSample] is -1. *)
Theorem balance initialCapacity cs w :
  well_nested cs ->
  (grants E (Z.max 2 initialCapacity) = true ->
   grants E (4 * Z.of_nat (length cs)) = true ->
   exists p w', session E initialCapacity cs w = Done (p, w')) /\
  (forall p w', session E initialCapacity cs w = Done (p, w') ->
                CurrentSample p = -1).
Proof.
  intros Hn. unfold session. split.
  - intros Hnew Hheap.
    destruct (new_Profiler_Done E initialCapacity w Hnew) as (p0 & H0).
    rewrite (bind_Done _ _ _ _ _ H0).
    apply (calls_Done cs p0 0%nat [] (S w) 0%nat).
    + eapply new_Profiler_depth_inv; eassumption.
    + exact Hn.
    + apply new_Profiler_inv in H0 as (-> & _). exact Hheap.
  - intros p w' H.
    apply bind_inv in H as (p0 & w0 & H0 & H).
    pose proof (new_Profiler_depth_inv _ _ _ _ H0) as Hinv0.
    destruct (calls_depths_of_calls _ _ _ _ _ _ _ _ Hinv0 Hn H) as (ds & Hds).
    destruct (calls_depths_inv _ _ _ _ _ _ _ _ _ Hinv0 Hds) as [Hinv _].
    destruct Hinv as (_ & _ & _ & Hopen). exact Hopen.
Qed.

(** C3.  In the pool a session has produced, following the parent links
    from any record reaches a record whose parent is -1, and the number of
    links followed is the nesting depth of the record at its creation: the
    number of samples that were open when the record was written. *)
Theorem parent_chain_depth initialCapacity cs w p open depths w' :
  session_depths E initialCapacity cs w = Done ((p, open, depths), w') ->
  session E initialCapacity cs w = Done (p, w') /\
  nesting 0 cs = Some open /\
  Z.of_nat (length depths) = SampleCount p /\
  forall i, 0 <= i < SampleCount p ->
            exists d, depths !! Z.to_nat i = Some d /\
                      steps_to_top_level (Z.to_nat (SampleCount p))
                        (SamplePool p) i = Some d.
Proof.
  unfold session_depths, session. intros H.
  apply bind_inv in H as (p0 & w0 & H0 & H).
  pose proof (new_Profiler_depth_inv _ _ _ _ H0) as Hinv0.
  destruct (calls_depths_inv _ _ _ _ _ _ _ _ _ Hinv0 H) as [Hinv Hcalls].
  split; [rewrite (bind_Done _ _ _ _ _ H0); exact Hcalls |].
  split; [exact (calls_depths_nesting _ _ _ _ _ _ _ _ _ Hinv0 H) |].
  destruct Hinv as (_ & Hlen & Hch & _). split; [exact Hlen |].
  intros i Hi. destruct (Hch i Hi) as (d & Hd & Hst).
  exists d. split; [exact Hd |].
  apply (steps_to_top_level_mono _ _ _ _ _ Hst). lia.
Qed.

End SessionFacts.

(** ** Export *)

Lemma string_app_assoc (a b c : string) : (a +:+ b) +:+ c = a +:+ (b +:+ c).
Proof.
  induction a as [|x a IH]; [reflexivity |].
  change (String x ((a +:+ b) +:+ c) = String x (a +:+ (b +:+ c))).
  rewrite IH. reflexivity.
Qed.

Lemma vsnprintf_event e :
  vsnprintf event_format (event_args e) = Some (render (event_of e)).
Proof.
  unfold render, quoted, event_of. cbn [ev_pid ev_tid ev_ts ev_dur ev_ph ev_name ev_args_ms].
  rewrite !string_app_assoc. reflexivity.
Qed.

Lemma FmtString_event e w :
  FmtString event_format (event_args e) w = Done (render (event_of e), w).
Proof. unfold FmtString. rewrite vsnprintf_event. reflexivity. Qed.

Lemma ToChromeTracingEvents_from_step p i acc w :
  i < SampleCount p ->
  ToChromeTracingEvents_from p i acc w =
  bind (subscript (SamplePool p) i) (fun e =>
    bind (FmtString event_format (event_args e)) (fun s =>
      if i <? INT_MAX
      then ToChromeTracingEvents_from p (i + 1) (acc ++ [s])
      else raise SignedOverflow)) w.
Proof.
  intros Hi. rewrite ToChromeTracingEvents_from_equation_1.
  destruct (Z_lt_dec i (SampleCount p)) as [l|n]; [| lia].
  rewrite ToChromeTracingEvents_from_clause_1_equation_1.
  unfold bind. destruct (subscript (SamplePool p) i w) as [[e w1]|]; [| reflexivity].
  destruct (FmtString event_format (event_args e) w1) as [[s w2]|]; [| reflexivity].
  destruct (i <? INT_MAX); reflexivity.
Qed.

Lemma ToChromeTracingEvents_from_stop p i acc w :
  SampleCount p <= i ->
  ToChromeTracingEvents_from p i acc w = Done (acc, w).
Proof.
  intros Hi. rewrite ToChromeTracingEvents_from_equation_1.
  destruct (Z_lt_dec i (SampleCount p)) as [l|n]; [lia |].
  reflexivity.
Qed.

(** The events of the records [i], [i + 1], ... up to [SampleCount]. *)
Lemma ToChromeTracingEvents_from_Done p (n : nat) : forall i acc w,
  0 <= i ->
  Z.of_nat n = SampleCount p - i ->
  SampleCount p <= Z.of_nat (length (SamplePool p)) ->
  SampleCount p <= INT_MAX ->
  ToChromeTracingEvents_from p i acc w =
  Done (acc ++ map (fun e => render (event_of e))
                   (take n (drop (Z.to_nat i) (SamplePool p))), w).
Proof.
  induction n as [|n IH]; intros i acc w Hi Hn Hlen Hmax.
  - rewrite ToChromeTracingEvents_from_stop by lia.
    cbn. rewrite app_nil_r. reflexivity.
  - rewrite ToChromeTracingEvents_from_step by lia.
    destruct (lookup_lt_is_Some_2 (SamplePool p) (Z.to_nat i)) as [e He]; [lia |].
    rewrite (bind_Done _ _ _ _ _ (subscript_Done _ _ _ w Hi He)).
    rewrite (bind_Done _ _ _ _ _ (FmtString_event e w)).
    destruct (Z.ltb_spec i INT_MAX); [| lia].
    rewrite IH by lia.
    rewrite (drop_S _ _ _ He). cbn [take map].
    replace (Z.to_nat (i + 1)) with (S (Z.to_nat i)) by lia.
    rewrite <- app_assoc. reflexivity.
Qed.

Lemma ToChromeTracingEvents_from_overflow p (n : nat) : forall i acc w,
  0 <= i ->
  Z.of_nat n = INT_MAX - i ->
  INT_MAX < SampleCount p ->
  SampleCount p <= Z.of_nat (length (SamplePool p)) ->
  ToChromeTracingEvents_from p i acc w = Crash SignedOverflow.
Proof.
  induction n as [|n IH]; intros i acc w Hi Hn Hmax Hlen.
  - rewrite ToChromeTracingEvents_from_step by lia.
    destruct (lookup_lt_is_Some_2 (SamplePool p) (Z.to_nat i)) as [e He]; [lia |].
    rewrite (bind_Done _ _ _ _ _ (subscript_Done _ _ _ w Hi He)).
    rewrite (bind_Done _ _ _ _ _ (FmtString_event e w)).
    destruct (Z.ltb_spec i INT_MAX); [lia | reflexivity].
  - rewrite ToChromeTracingEvents_from_step by lia.
    destruct (lookup_lt_is_Some_2 (SamplePool p) (Z.to_nat i)) as [e He]; [lia |].
    rewrite (bind_Done _ _ _ _ _ (subscript_Done _ _ _ w Hi He)).
    rewrite (bind_Done _ _ _ _ _ (FmtString_event e w)).
    destruct (Z.ltb_spec i INT_MAX); [| lia].
    apply IH; lia.
Qed.

Lemma ToChromeTracingEvents_from_inv p (n : nat) : forall i acc w events w',
  0 <= i ->
  Z.of_nat n = Z.max 0 (SampleCount p - i) ->
  ToChromeTracingEvents_from p i acc w = Done (events, w') ->
  events = acc ++ map (fun e => render (event_of e))
                      (take n (drop (Z.to_nat i) (SamplePool p)))
  /\ (n <= length (drop (Z.to_nat i) (SamplePool p)))%nat
  /\ SampleCount p <= Z.max i INT_MAX.
Proof.
  induction n as [|n IH]; intros i acc w events w' Hi Hn H.
  - rewrite ToChromeTracingEvents_from_stop in H by lia.
    injection H as <- <-. cbn. rewrite app_nil_r. repeat split; lia.
  - rewrite ToChromeTracingEvents_from_step in H by lia.
    apply bind_inv in H as (e & w1 & He & H).
    apply subscript_inv in He as (_ & He & ->).
    rewrite (bind_Done _ _ _ _ _ (FmtString_event e w)) in H.
    destruct (Z.ltb_spec i INT_MAX); [| discriminate].
    apply IH in H as (-> & Hlen & Hmax); [| lia | lia].
    rewrite (drop_S _ _ _ He). cbn [take map length].
    replace (Z.to_nat (i + 1)) with (S (Z.to_nat i)) in * by lia.
    rewrite <- app_assoc. repeat split; [lia | lia].
Qed.

(** Export completeness, for pools the [int] counter of the loop can walk:
    one event per record, in pool order, appended to what the caller
    supplies; the variant that returns a fresh vector gives the same
    events. *)
Lemma ToChromeTracingEvents_complete p appendTo w :
  0 <= SampleCount p <= Z.of_nat (length (SamplePool p)) ->
  SampleCount p <= INT_MAX ->
  let events := map (fun e => render (event_of e))
                    (take (Z.to_nat (SampleCount p)) (SamplePool p)) in
  ToChromeTracingEvents_append p appendTo w = Done (appendTo ++ events, w) /\
  ToChromeTracingEvents p w = Done (events, w) /\
  Z.of_nat (length events) = SampleCount p /\
  ToChromeTracingEvents p w = ToChromeTracingEvents_append p [] w.
Proof.
  intros Hc Hmax events. unfold ToChromeTracingEvents, ToChromeTracingEvents_append.
  rewrite !(ToChromeTracingEvents_from_Done p (Z.to_nat (SampleCount p))) by lia.
  change (Z.to_nat 0) with 0%nat. rewrite !drop_0. fold events.
  repeat split. subst events. rewrite length_map, length_take. lia.
Qed.

(** C6, at the input on which the code fails.  The loop of
    [ToChromeTracingEvents] counts in an [int]: on a recorder that holds
    2^31 samples the counter reaches [INT_MAX] with records still to export
    and its increment overflows, so the export does not deliver the
    [SampleCount] events it delivers on smaller pools. *)
Theorem export_overflows_int_counter w :
  ToChromeTracingEvents crowded_recorder w = Crash SignedOverflow.
Proof.
  unfold ToChromeTracingEvents, ToChromeTracingEvents_append.
  apply (ToChromeTracingEvents_from_overflow crowded_recorder (Z.to_nat INT_MAX)).
  - lia.
  - unfold INT_MAX. lia.
  - unfold INT_MAX, crowded_recorder. cbn [SampleCount]. lia.
  - unfold crowded_recorder. cbn [SampleCount SamplePool].
    rewrite length_replicate. lia.
Qed.

(** C7.  The event exported for a record has [pid] 1, [tid] 1, phase "X"
    and the name of the record; [ts] is the begin time divided, as a
    double, by 1000.0, [dur] is the unsigned difference of end and begin
    time divided by 1000.0, and [args.ms] is that difference divided by
    1e6. *)
Theorem exported_event_fields p w events w' i e :
  ToChromeTracingEvents p w = Done (events, w') ->
  0 <= i < SampleCount p ->
  SamplePool p !! Z.to_nat i = Some e ->
  events !! Z.to_nat i =
  Some (render
          {| ev_pid := 1;
             ev_tid := 1;
             ev_ts := double_div (double_of_Z (BeginNanoseconds e))
                        (double_of_Z 1000);
             ev_dur := double_div
                         (double_of_Z
                            (to_uint64 (EndNanoseconds e - BeginNanoseconds e)))
                         (double_of_Z 1000);
             ev_ph := "X";
             ev_name := Name e;
             ev_args_ms := double_div
                             (double_of_Z
                                (to_uint64 (EndNanoseconds e - BeginNanoseconds e)))
                             (double_of_Z 1000000) |}).
Proof.
  intros H Hi He. unfold ToChromeTracingEvents, ToChromeTracingEvents_append in H.
  apply (ToChromeTracingEvents_from_inv p (Z.to_nat (SampleCount p))) in H
    as (-> & _ & _); [| lia | lia].
  change (Z.to_nat 0) with 0%nat. rewrite drop_0. cbn [app].
  rewrite list_lookup_fmap, lookup_take_lt by lia. rewrite He. reflexivity.
Qed.

(** ** The theorems at work on concrete recorders *)

Lemma wf_fresh_recorder : wf fresh_recorder.
Proof.
  constructor; cbn; unfold sizeof_Sample, SIZE_MAX; lia.
Qed.

Lemma wf_fresh_recorder_in_A : wf fresh_recorder_in_A.
Proof.
  constructor; cbn; unfold sizeof_Sample, SIZE_MAX; try lia.
  intros i s Hi Hs. assert (i = 0 \/ i = 1) as [-> | ->] by lia;
    injection Hs as <-; cbn; lia.
Qed.

Lemma wf_recorder_in_A : wf recorder_in_A.
Proof.
  constructor; cbn; unfold sizeof_Sample, SIZE_MAX; try lia.
  intros i s Hi Hs. assert (i = 0) as -> by lia.
  injection Hs as <-. cbn. lia.
Qed.

(** Microseconds and milliseconds keep their fraction: 1500 ns is printed as
    1.5 us, 2500 ns as 2.5 us and as 0.0025 ms. *)
Example event_keeps_fractions :
  fmt_f (ev_ts (event_of (mkSample (-1) 1500 4000 "A"))) = "1.500000" /\
  fmt_f (ev_dur (event_of (mkSample (-1) 1500 4000 "A"))) = "2.500000" /\
  fmt_f (ev_args_ms (event_of (mkSample (-1) 1500 4000 "A"))) = "0.002500".
Proof. repeat split; vm_compute; reflexivity. Qed.

(** Scenario 3 of the specification: capacity 2 and five begin/end pairs
    give five samples and three records of reallocations. *)
Example five_pairs_from_capacity_2 :
  exists p w',
    session example_platform 2
      [Begin "1"; End_; Begin "2"; End_; Begin "3"; End_; Begin "4"; End_;
       Begin "5"; End_] 0%nat = Done (p, w') /\
    SampleCount p = 8 /\
    CurrentSample p = -1 /\
    length (filter (fun s => Name s = ReallocateSamplePool_name)
              (take 8 (SamplePool p))) = 3%nat.
Proof. eexists _, _. split; [vm_compute; reflexivity |]. repeat split. Qed.

(** C1 as stated fails on a fresh recorder of capacity 2 (clock started at
    1000, first reading made): [BeginSample "A"] writes "A" at index 0 with
    parent -1 and makes it current, then reallocates and writes the record
    of the reallocation at index 1 with parent 0, the index of "A", and not
    -1, the value [CurrentSample] had when "A" was opened. *)
Lemma reallocation_record_not_sibling :
  ~ (wf fresh_recorder ->
     triggers_growth fresh_recorder = true ->
     forall p' w' marker,
       BeginSample example_platform "A" fresh_recorder 1%nat = Done (p', w') ->
       SamplePool p' !! Z.to_nat (SampleCount fresh_recorder + 1) = Some marker ->
       Name marker = ReallocateSamplePool_name /\
       Parent marker = CurrentSample fresh_recorder).
Proof.
  intros H.
  destruct (H wf_fresh_recorder eq_refl _ _ _ eq_refl eq_refl) as [_ Hparent].
  discriminate Hparent.
Qed.

Lemma reallocation_record_is_child_witness :
  wf fresh_recorder /\
  BeginSample example_platform "A" fresh_recorder 1%nat
  = Done (fresh_recorder_in_A, 4%nat) /\
  triggers_growth fresh_recorder = true /\
  exists marker,
    SamplePool fresh_recorder_in_A !! 1%nat = Some marker /\
    Parent marker = 0 /\
    Parent marker = CurrentSample fresh_recorder_in_A.
Proof.
  split; [exact wf_fresh_recorder |]. split; [reflexivity |].
  split; [reflexivity |].
  destruct (reallocation_record_is_child example_platform "A" fresh_recorder 1%nat
              fresh_recorder_in_A 4%nat wf_fresh_recorder eq_refl eq_refl)
    as (opened & marker & _ & _ & _ & Hm & _ & Hp & Hc & _).
  exists marker. split; [exact Hm |]. split; [exact Hp | exact Hc].
Defined.

Lemma balance_witness :
  well_nested [Begin "A"; Begin "B"; End_; End_] /\
  exists p w',
    session example_platform 2 [Begin "A"; Begin "B"; End_; End_] 0%nat
    = Done (p, w') /\
    CurrentSample p = -1.
Proof.
  split; [reflexivity |].
  destruct (balance example_platform 2 [Begin "A"; Begin "B"; End_; End_] 0%nat
              eq_refl)
    as [Hruns Hends].
  destruct (Hruns eq_refl eq_refl) as (p & w' & Hp).
  exists p, w'. split; [exact Hp | exact (Hends p w' Hp)].
Defined.

Lemma parent_chain_depth_witness :
  exists p open depths w',
    session_depths example_platform 2 [Begin "A"; Begin "B"; End_; End_] 0%nat
    = Done ((p, open, depths), w') /\
    depths = [0; 1; 1; 2]%nat /\
    steps_to_top_level (Z.to_nat (SampleCount p)) (SamplePool p) 3 = Some 2%nat.
Proof.
  destruct (session_depths example_platform 2
              [Begin "A"; Begin "B"; End_; End_] 0%nat)
    as [[[[p open] depths] w']|f] eqn:Hrun;
    [| vm_compute in Hrun; discriminate Hrun].
  exists p, open, depths, w'. split; [reflexivity |].
  destruct (parent_chain_depth example_platform 2
              [Begin "A"; Begin "B"; End_; End_] 0%nat p open depths w' Hrun)
    as (_ & _ & _ & Hchain).
  vm_compute in Hrun. injection Hrun as <- <- <- <-.
  split; [reflexivity |].
  destruct (Hchain 3) as (d & Hd & Hsteps); [cbn; lia |].
  injection Hd as <-. exact Hsteps.
Defined.

Lemma BeginSample_growth_policy_witness :
  wf fresh_recorder /\
  exists p' w',
    BeginSample example_platform "A" fresh_recorder 1%nat = Done (p', w') /\
    SampleCapacity p' = 4 /\
    SampleCount p' = 2.
Proof.
  split; [exact wf_fresh_recorder |].
  destruct (BeginSample_growth_policy example_platform "A" fresh_recorder 1%nat
              wf_fresh_recorder (fun _ => eq_refl))
    as (p' & w' & Hp & Hgrow & _).
  exists p', w'. split; [exact Hp |].
  destruct Hgrow as (Hcap & _ & Hcount & _); [cbn; lia |].
  split; [exact Hcap | exact Hcount].
Defined.

Lemma growth_preserves_samples_witness :
  wf fresh_recorder_in_A /\
  triggers_growth fresh_recorder_in_A = true /\
  exists p' w',
    BeginSample example_platform "B" fresh_recorder_in_A 4%nat = Done (p', w') /\
    SamplePool p' !! 0%nat = Some (mkSample (-1) 1500 0 "A") /\
    SamplePool p' !! 1%nat = Some (mkSample 0 3000 4500 ReallocateSamplePool_name) /\
    SampleCount p' = 4.
Proof.
  split; [exact wf_fresh_recorder_in_A |]. split; [reflexivity |].
  destruct (BeginSample example_platform "B" fresh_recorder_in_A 4%nat)
    as [[p' w']|f] eqn:Hrun; [| vm_compute in Hrun; discriminate Hrun].
  exists p', w'. split; [reflexivity |].
  destruct (growth_preserves_samples example_platform "B" fresh_recorder_in_A
              4%nat p' w' wf_fresh_recorder_in_A Hrun eq_refl)
    as (Hold & Hcount & _).
  split; [apply (Hold 0); cbn; lia |].
  split; [apply (Hold 1); cbn; lia |].
  exact Hcount.
Defined.

Lemma EndSample_contract_witness :
  wf recorder_in_A /\
  CurrentSample recorder_in_A <> -1 /\
  exists p',
    EndSample example_platform recorder_in_A 2%nat = Done (p', 3%nat) /\
    SamplePool p' !! 0%nat = Some (mkSample (-1) 1500 3000 "A") /\
    CurrentSample p' = -1.
Proof.
  split; [exact wf_recorder_in_A |]. split; [discriminate |].
  destruct (EndSample_contract example_platform recorder_in_A 2%nat wf_recorder_in_A)
    as [Hopen _].
  destruct Hopen as (s & p' & Hs & Hp & Hend & Hcur & _); [discriminate |].
  injection Hs as <-.
  exists p'. split; [exact Hp |]. split; [exact Hend | exact Hcur].
Defined.

Lemma two_free_slots_witness :
  reachable example_platform fresh_recorder_in_A /\
  SampleCount fresh_recorder_in_A + 2 <= SampleCapacity fresh_recorder_in_A.
Proof.
  assert (Hr : reachable example_platform fresh_recorder_in_A).
  { apply (reachable_call example_platform (Begin "A") fresh_recorder 1%nat
             fresh_recorder_in_A 4%nat); [| reflexivity].
    exact (reachable_new example_platform 2 0%nat fresh_recorder 1%nat eq_refl). }
  split; [exact Hr |].
  destruct (two_free_slots example_platform fresh_recorder_in_A Hr)
    as (_ & Hfree & _).
  exact Hfree.
Defined.

Lemma reallocation_keeps_current_witness :
  exists p' w',
    ReallocateSamplePool example_platform recorder_in_A 2%nat = Done (p', w') /\
    CurrentSample p' = CurrentSample recorder_in_A /\
    SamplePool p' !! 1%nat
    = Some (mkSample 0 3000 4500 ReallocateSamplePool_name).
Proof.
  destruct (ReallocateSamplePool example_platform recorder_in_A 2%nat)
    as [[p' w']|f] eqn:Hrun; [| vm_compute in Hrun; discriminate Hrun].
  exists p', w'. split; [reflexivity |].
  destruct (reallocation_keeps_current example_platform recorder_in_A 2%nat
              p' w' Hrun)
    as (Hcur & _ & Hmarker & _).
  split; [exact Hcur | exact Hmarker].
Defined.

Lemma exported_event_fields_witness :
  exists events,
    ToChromeTracingEvents recorder_after_A 0%nat = Done (events, 0%nat) /\
    events !! 0%nat = Some (render (event_of (mkSample (-1) 1500 4000 "A"))).
Proof.
  destruct (ToChromeTracingEvents recorder_after_A 0%nat)
    as [[events w']|f] eqn:Hrun; [| vm_compute in Hrun; discriminate Hrun].
  assert (w' = 0%nat) as ->.
  { pose proof Hrun as H. vm_compute in H. injection H as _ <-. reflexivity. }
  exists events. split; [reflexivity |].
  exact (exported_event_fields recorder_after_A 0%nat events 0%nat 0
           (mkSample (-1) 1500 4000 "A") Hrun
           (conj (Z.le_refl 0) eq_refl) eq_refl).
Defined.

(** ** Well-nested sequences, by their shape *)

Lemma nesting_app d a b :
  nesting d (a ++ b) =
  match nesting d a with Some m => nesting m b | None => None end.
Proof.
  revert d. induction a as [|[name|] a IH]; intros d; cbn [app nesting].
  - reflexivity.
  - apply IH.
  - destruct d as [|d']; [reflexivity | apply IH].
Qed.

Lemma nesting_lift k cs : forall d n,
  nesting d cs = Some n -> nesting (d + k) cs = Some (n + k)%nat.
Proof.
  induction cs as [|[name|] cs IH]; intros d n H; cbn [nesting] in *.
  - injection H as <-. reflexivity.
  - apply (IH (S d) n H).
  - destruct d as [|d']; [discriminate |]. apply (IH d' n H).
Qed.

Lemma nesting_split (n : nat) : forall cs d,
  (length cs <= n)%nat ->
  nesting (S d) cs = Some 0%nat ->
  exists b1 b2,
    cs = b1 ++ End_ :: b2 /\ nesting 0 b1 = Some 0%nat /\ nesting d b2 = Some 0%nat.
Proof.
  induction n as [|n IH]; intros cs d Hlen H.
  - destruct cs; [discriminate | cbn in Hlen; lia].
  - destruct cs as [|[name|] cs]; cbn [nesting length] in *.
    + discriminate.
    + destruct (IH cs (S d) ltac:(lia) H) as (c1 & c2 & -> & Hc1 & Hc2).
      rewrite length_app in Hlen. cbn [length] in Hlen.
      destruct (IH c2 d ltac:(lia) Hc2) as (e1 & e2 & -> & He1 & He2).
      exists (Begin name :: c1 ++ End_ :: e1), e2.
      split; [cbn [app]; f_equal; rewrite <- app_assoc; reflexivity |].
      split; [| exact He2].
      cbn [nesting]. rewrite nesting_app.
      pose proof (nesting_lift 1 c1 0 0 Hc1) as Hl. cbn [Nat.add] in Hl.
      rewrite Hl. cbn [nesting]. exact He1.
    + exists [], cs. auto.
Qed.

Lemma well_nested_ind (P : list Call -> Prop) :
  P [] ->
  (forall name b1 b2,
      well_nested b1 -> well_nested b2 -> P b1 -> P b2 ->
      P (Begin name :: b1 ++ End_ :: b2)) ->
  forall cs, well_nested cs -> P cs.
Proof.
  intros Hnil Hstep cs. remember (length cs) as n eqn:Hn.
  revert cs Hn. induction n as [n IH] using lt_wf_ind. intros cs -> H.
  destruct cs as [|[name|] cs]; [exact Hnil | | discriminate].
  unfold well_nested in H. cbn [nesting] in H.
  destruct (nesting_split (length cs) cs 0 ltac:(lia) H) as (b1 & b2 & -> & H1 & H2).
  apply Hstep; try assumption.
  - apply (IH (length b1)); [cbn; rewrite length_app; cbn; lia | reflexivity | exact H1].
  - apply (IH (length b2)); [cbn; rewrite length_app; cbn; lia | reflexivity | exact H2].
Qed.

Section NestingFacts.

Variable E : Platform.

Lemma calls_app a b p w :
  calls E (a ++ b) p w = bind (calls E a p) (calls E b) w.
Proof.
  revert p w. induction a as [|c a IH]; intros p w; cbn [app calls].
  - reflexivity.
  - unfold bind. destruct (call E c p w) as [[q w1]|f]; [| reflexivity].
    rewrite IH. reflexivity.
Qed.

Lemma calls_scoped name b1 b2 p w :
  calls E (Begin name :: b1 ++ End_ :: b2) p w =
  bind (scoped E name (calls E b1) p) (calls E b2) w.
Proof.
  cbn [calls call]. unfold scoped, ScopedSample, ScopedSampler_new,
    ScopedSampler_delete, bind.
  destruct (BeginSample E name p w) as [[p1 w1]|f]; [| reflexivity].
  pose proof (calls_app b1 (End_ :: b2) p1 w1) as Happ. unfold bind in Happ.
  rewrite Happ. destruct (calls E b1 p1 w1) as [[p2 w2]|f]; [| reflexivity].
  cbn [calls call]. reflexivity.
Qed.

(** ** Keeping the nesting *)

Lemma extends_refl p : wf p -> extends p p.
Proof.
  intros Hwf. unfold extends. split; [exact Hwf |]. split; [reflexivity |].
  split; [lia |]. split; [reflexivity |]. intros i Hi. reflexivity.
Qed.

Lemma extends_trans p q r : extends p q -> extends q r -> extends p r.
Proof.
  intros (Hwq & Hcq & Hnq & Hsq & Hfq) (Hwr & Hcr & Hnr & Hsr & Hfr).
  unfold extends. split; [exact Hwr |]. split; [congruence |].
  split; [lia |]. split; [congruence |].
  intros i Hi. rewrite Hfr by lia. apply Hfq. exact Hi.
Qed.

Lemma BeginSample_opens name p w p1 w1 :
  wf p ->
  BeginSample E name p w = Done (p1, w1) ->
  wf p1 /\
  CurrentSample p1 = SampleCount p /\
  SampleCount p < SampleCount p1 <= SampleCount p + 2 /\
  ClockStart p1 = ClockStart p /\
  (w < w1)%nat /\
  (forall i : nat, Z.of_nat i < SampleCount p ->
                   SamplePool p1 !! i = SamplePool p !! i) /\
  exists unset,
    SamplePool p1 !! Z.to_nat (SampleCount p) =
    Some {| Parent := CurrentSample p;
            BeginNanoseconds := elapsed E p w;
            EndNanoseconds := unset;
            Name := name |}.
Proof.
  intros Hwf H. pose proof (BeginSample_wf E name p w p1 w1 Hwf H) as Hwf1.
  destruct (BeginSample_facts E name p w p1 w1 Hwf H)
    as (s0 & _ & Hcur & Hst & Hop & Hold & _ & Hg).
  destruct Hwf as [Hl Ha Hc Hf Hcur0 Hpar].
  split; [exact Hwf1 |]. split; [exact Hcur |].
  assert (Hcw : SampleCount p < SampleCount p1 <= SampleCount p + 2 /\ (w < w1)%nat).
  { destruct (triggers_growth p); [destruct Hg as (-> & _ & -> & _)
                                  | destruct Hg as (-> & _ & -> & _)]; lia. }
  split; [tauto |]. split; [exact Hst |]. split; [tauto |].
  split; [| eauto].
  intros i Hi. apply Hold; lia.
Qed.

(** A block that holds a sampler keeps the nesting when its body does, and
    leaves the sample of the sampler closed at the reading made on exit. *)
Lemma scoped_closes name body p w p' w' :
  balanced_body body ->
  wf p ->
  scoped E name body p w = Done (p', w') ->
  extends p p' /\ (w < w')%nat /\
  exists unset p1 w1 p2 w2,
    BeginSample E name p w = Done (p1, w1) /\
    body p1 w1 = Done (p2, w2) /\
    w' = S w2 /\
    (forall i : nat, i <> Z.to_nat (SampleCount p) ->
                     SamplePool p' !! i = SamplePool p2 !! i) /\
    SampleCount p' = SampleCount p2 /\
    SamplePool p2 !! Z.to_nat (SampleCount p) =
      Some {| Parent := CurrentSample p;
              BeginNanoseconds := elapsed E p w;
              EndNanoseconds := unset;
              Name := name |} /\
    SamplePool p' !! Z.to_nat (SampleCount p) =
      Some {| Parent := CurrentSample p;
              BeginNanoseconds := elapsed E p w;
              EndNanoseconds := elapsed E p w2;
              Name := name |}.
Proof.
  intros Hbody Hwf H. unfold scoped, ScopedSample, ScopedSampler_new,
    ScopedSampler_delete in H.
  apply bind_inv in H as (p1 & w1 & Hbegin & H).
  apply bind_inv in H as (p2 & w2 & Hrun & Hend).
  destruct (BeginSample_opens name p w p1 w1 Hwf Hbegin)
    as (Hwf1 & Hcur1 & Hcnt1 & Hst1 & Hw1 & Hold1 & unset & Hop).
  destruct (Hbody p1 w1 p2 w2 Hwf1 Hrun) as [(Hwf2 & Hcur2 & Hcnt2 & Hst2 & Hold2) Hw2].
  pose proof (EndSample_wf E p2 w2 p' w' Hwf2 Hend) as Hwf'.
  apply EndSample_inv in Hend as (s & Hc0 & Hs & -> & ->).
  pose proof Hwf as [Hl Ha Hc Hf Hcur Hpar].
  assert (Hop2 : SamplePool p2 !! Z.to_nat (SampleCount p) =
                 Some {| Parent := CurrentSample p;
                         BeginNanoseconds := elapsed E p w;
                         EndNanoseconds := unset;
                         Name := name |}).
  { rewrite Hold2 by lia. exact Hop. }
  rewrite Hcur2, Hcur1 in Hs. rewrite Hop2 in Hs. injection Hs as <-.
  cbn [Parent BeginNanoseconds Name] in *.
  assert (Hin : 0 <= SampleCount p < Z.of_nat (length (SamplePool p2))).
  { apply lookup_lt_Some in Hop2. lia. }
  split; [| split; [lia |]].
  - unfold extends.
    cbn [CurrentSample SampleCount ClockStart SamplePool].
    split; [exact Hwf' |]. split; [reflexivity |]. split; [lia |].
    split; [congruence |].
    intros i Hi. rewrite Hcur2, Hcur1.
    rewrite lookup_store_ne by lia. rewrite Hold2 by lia. apply Hold1. exact Hi.
  - exists unset, p1, w1, p2, w2. cbn [SamplePool SampleCount].
    rewrite Hcur2, Hcur1.
    split; [exact Hbegin |]. split; [exact Hrun |]. split; [reflexivity |].
    split; [intros i Hi; apply lookup_store_ne; exact Hi |].
    split; [reflexivity |]. split; [exact Hop2 |].
    rewrite lookup_store_eq by exact Hin.
    unfold elapsed. rewrite Hst2, Hst1. reflexivity.
Qed.

Lemma scoped_balanced name body :
  balanced_body body -> balanced_body (scoped E name body).
Proof.
  intros Hbody p w p' w' Hwf H.
  destruct (scoped_closes name body p w p' w' Hbody Hwf H) as (Hext & Hw & _).
  split; [exact Hext | lia].
Qed.

Lemma bind_balanced f g :
  balanced_body f -> balanced_body g -> balanced_body (fun p => bind (f p) g).
Proof.
  intros Hf Hg p w p' w' Hwf H.
  apply bind_inv in H as (q & w1 & Hq & H).
  destruct (Hf p w q w1 Hwf Hq) as [Hext1 Hw1].
  destruct (Hg q w1 p' w' ltac:(apply Hext1) H) as [Hext2 Hw2].
  split; [eapply extends_trans; eassumption | lia].
Qed.

Lemma calls_balanced cs : well_nested cs -> balanced_body (calls E cs).
Proof.
  intros H. induction H as [| name b1 b2 _ _ IH1 IH2] using well_nested_ind.
  - intros p w p' w' Hwf Hrun. cbn [calls] in Hrun.
    apply ret_inv in Hrun as [-> ->]. split; [apply extends_refl; exact Hwf | lia].
  - intros p w p' w' Hwf Hrun. rewrite calls_scoped in Hrun.
    exact (bind_balanced _ _ (scoped_balanced name _ IH1) IH2 p w p' w' Hwf Hrun).
Qed.


(** ** Time windows *)

Lemma elapsed_same_start p p' k :
  ClockStart p' = ClockStart p -> elapsed E p' k = elapsed E p k.
Proof. intros H. unfold elapsed. rewrite H. reflexivity. Qed.

Lemma time_flows_later p p' w w' :
  ClockStart p' = ClockStart p -> (w <= w')%nat ->
  time_flows E p w -> time_flows E p' w'.
Proof.
  intros Hst Hw Hflow j k Hjk. rewrite !(elapsed_same_start p p') by exact Hst.
  apply Hflow. lia.
Qed.

(** The record of a reallocation, when [BeginSample] writes one. *)
Lemma BeginSample_marker name p w p1 w1 :
  wf p ->
  BeginSample E name p w = Done (p1, w1) ->
  forall i s,
    SampleCount p < i < SampleCount p1 ->
    SamplePool p1 !! Z.to_nat i = Some s ->
    Parent s = SampleCount p /\
    BeginNanoseconds s = elapsed E p (S w) /\
    EndNanoseconds s = elapsed E p (S (S w)) /\
    w1 = S (S (S w)).
Proof.
  intros Hwf H i s Hi Hs.
  destruct (BeginSample_facts E name p w p1 w1 Hwf H)
    as (s0 & _ & _ & _ & _ & _ & _ & Hg).
  destruct (triggers_growth p).
  - destruct Hg as (Hcnt & _ & -> & _ & Hmk).
    assert (i = SampleCount p + 1) as -> by lia.
    rewrite Hmk in Hs. injection Hs as <-. cbn. auto.
  - destruct Hg as (Hcnt & _). lia.
Qed.

Lemma ret_timed : timed_body E (fun p => ret p).
Proof.
  intros p w p' w' Hwf Hflow H. apply ret_inv in H as [-> ->].
  split; [apply extends_refl; exact Hwf |]. split; [lia |].
  split; [intros i s Hi; lia | intros i j s t Hi Hj; lia].
Qed.

Lemma bind_timed f g :
  timed_body E f -> timed_body E g -> timed_body E (fun p => bind (f p) g).
Proof.
  intros Hf Hg p w r w2 Hwf Hflow H.
  apply bind_inv in H as (q & w1 & Hq & H).
  destruct (Hf p w q w1 Hwf Hflow Hq) as (Hext1 & Hw1 & Hwin1 & Hsib1).
  pose proof Hext1 as (Hwfq & Hcurq & Hcntq & Hstq & Holdq).
  pose proof (time_flows_later p q w w1 Hstq Hw1 Hflow) as Hflowq.
  destruct (Hg q w1 r w2 Hwfq Hflowq H) as (Hext2 & Hw2 & Hwin2 & Hsib2).
  pose proof Hext2 as (Hwfr & Hcurr & Hcntr & Hstr & Holdr).
  pose proof Hwf as [_ _ Hc _ Hcur _].
  assert (Hm1 : elapsed E p w <= elapsed E p w1) by (apply Hflow; lia).
  assert (Hm2 : elapsed E p w1 <= elapsed E p w2) by (apply Hflow; lia).
  rewrite !(elapsed_same_start p q) in * by exact Hstq.
  split; [eapply extends_trans; eassumption |]. split; [lia |].
  assert (Hpart1 : forall i s,
             SampleCount p <= i < SampleCount r ->
             SamplePool r !! Z.to_nat i = Some s ->
             elapsed E p w <= BeginNanoseconds s /\
             BeginNanoseconds s <= EndNanoseconds s /\
             EndNanoseconds s <= elapsed E p w2 /\
             (Parent s = CurrentSample p \/
              SampleCount p <= Parent s < i /\
              exists s', SamplePool r !! Z.to_nat (Parent s) = Some s' /\
                         BeginNanoseconds s' <= BeginNanoseconds s /\
                         EndNanoseconds s <= EndNanoseconds s') /\
             (i < SampleCount q -> EndNanoseconds s <= elapsed E p w1) /\
             (SampleCount q <= i ->
              elapsed E p w1 <= BeginNanoseconds s /\
              (Parent s = CurrentSample p \/ SampleCount q <= Parent s))).
  { intros i s Hi Hs.
    destruct (Z.lt_ge_cases i (SampleCount q)) as [Hlt | Hge].
    - rewrite Holdr in Hs by lia.
      destruct (Hwin1 i s ltac:(lia) Hs) as (Hb & Hbe & He & Hp).
      split; [exact Hb |]. split; [exact Hbe |]. split; [lia |].
      split; [| split; [intros _; exact He | lia]].
      destruct Hp as [Hp | (Hpr & s' & Hs' & Hin)]; [left; exact Hp | right].
      split; [exact Hpr |]. exists s'. split; [| exact Hin].
      rewrite Holdr by lia. exact Hs'.
    - destruct (Hwin2 i s ltac:(lia) Hs) as (Hb & Hbe & He & Hp).
      split; [lia |]. split; [exact Hbe |]. split; [exact He |].
      split; [| split; [lia | intros _; split; [exact Hb |]]].
      + destruct Hp as [Hp | (Hpr & Hin)]; [left; congruence | right].
        split; [lia | exact Hin].
      + destruct Hp as [Hp | (Hpr & _)]; [left; congruence | right; lia]. }
  split.
  - intros i s Hi Hs. destruct (Hpart1 i s Hi Hs) as (H1 & H2 & H3 & H4 & _).
    auto.
  - intros i j s t Hi Hj Hs Ht Hpar.
    destruct (Z.lt_ge_cases j (SampleCount q)) as [Hjq | Hjq].
    + rewrite Holdr in Hs, Ht by lia. apply (Hsib1 i j s t); auto.
    + destruct (Z.lt_ge_cases i (SampleCount q)) as [Hiq | Hiq].
      * destruct (Hpart1 i s ltac:(lia) Hs) as (_ & _ & _ & Hps & Hes & _).
        destruct (Hpart1 j t ltac:(lia) Ht) as (_ & _ & _ & _ & _ & Hbt).
        specialize (Hes Hiq). destruct (Hbt Hjq) as [Hbt1 Hpt].
        destruct Hpt as [Hpt | Hpt]; [lia |].
        destruct Hps as [Hps | (Hps & _)]; lia.
      * apply (Hsib2 i j s t); auto; lia.
Qed.


Lemma scoped_timed name body :
  balanced_body body -> timed_body E body -> timed_body E (scoped E name body).
Proof.
  intros Hbal Hbody p w p' w' Hwf Hflow H.
  destruct (scoped_closes name body p w p' w' Hbal Hwf H)
    as (Hext & Hw & unset & p1 & w1 & p2 & w2 & Hbegin & Hrun & -> & Hother
        & Hcnt' & Hop2 & Hop').
  destruct (BeginSample_opens name p w p1 w1 Hwf Hbegin)
    as (Hwf1 & Hcur1 & Hcnt1 & Hst1 & Hw1 & Hold1 & _).
  pose proof (BeginSample_marker name p w p1 w1 Hwf Hbegin) as Hmark.
  pose proof (time_flows_later p p1 w w1 Hst1 ltac:(lia) Hflow) as Hflow1.
  destruct (Hbody p1 w1 p2 w2 Hwf1 Hflow1 Hrun)
    as ((_ & _ & Hcnt2 & _ & Hold2) & Hw2 & Hwin & Hsib).
  rewrite !(elapsed_same_start p p1) in * by exact Hst1.
  pose proof Hwf as [_ _ Hc _ Hcur _].
  assert (Hm : forall j k, (w <= j <= k)%nat -> elapsed E p j <= elapsed E p k)
    by exact Hflow.
  split; [exact Hext |]. split; [lia |].
  (* what each new record of [p'] is *)
  assert (Hcases : forall i s,
             SampleCount p <= i < SampleCount p' ->
             SamplePool p' !! Z.to_nat i = Some s ->
             (i = SampleCount p /\
              s = {| Parent := CurrentSample p;
                     BeginNanoseconds := elapsed E p w;
                     EndNanoseconds := elapsed E p w2;
                     Name := name |}) \/
             (SampleCount p < i < SampleCount p1 /\
              Parent s = SampleCount p /\
              BeginNanoseconds s = elapsed E p (S w) /\
              EndNanoseconds s = elapsed E p (S (S w)) /\
              w1 = S (S (S w))) \/
             (SampleCount p1 <= i /\ SamplePool p2 !! Z.to_nat i = Some s)).
  { intros i s Hi Hs.
    destruct (Z.eq_dec i (SampleCount p)) as [-> | Hne].
    - left. rewrite Hop' in Hs. injection Hs as <-. auto.
    - right. rewrite Hother in Hs by lia.
      destruct (Z.lt_ge_cases i (SampleCount p1)) as [Hlt | Hge]; [left | right; auto].
      rewrite Hold2 in Hs by lia.
      split; [lia |]. apply (Hmark i s); [lia | exact Hs]. }
  split.
  - intros i s Hi Hs.
    destruct (Hcases i s Hi Hs)
      as [[-> ->] | [(Hi1 & Hp & Hb & He & ->) | (Hi2 & Hs2)]].
    + cbn. split; [lia |]. split; [apply Hm; lia |].
      split; [apply Hm; lia | left; reflexivity].
    + rewrite Hp, Hb, He. split; [apply Hm; lia |]. split; [apply Hm; lia |].
      split; [apply Hm; lia | right]. split; [lia |].
      eexists. split; [exact Hop' |]. cbn. split; apply Hm; lia.
    + destruct (Hwin i s ltac:(lia) Hs2) as (Hb & Hbe & He & Hp).
      assert (elapsed E p w <= elapsed E p w1) by (apply Hm; lia).
      assert (elapsed E p w2 <= elapsed E p (S w2)) by (apply Hm; lia).
      split; [lia |]. split; [exact Hbe |]. split; [lia | right].
      destruct Hp as [Hp | (Hpr & s' & Hs' & Hin)].
      * rewrite Hp, Hcur1. split; [lia |].
        eexists. split; [exact Hop' |]. cbn. lia.
      * split; [lia |]. exists s'. split; [| exact Hin].
        rewrite Hother by lia. exact Hs'.
  - intros i j s t Hi Hj Hs Ht Hpar.
    destruct (Hcases i s ltac:(lia) Hs)
      as [[-> ->] | [(Hi1 & Hp & Hb & He & ->) | (Hi2 & Hs2)]];
      destruct (Hcases j t ltac:(lia) Ht)
        as [[-> ->] | [(Hj1 & Hpt & Hbt & Het & Hw3) | (Hj2 & Ht2)]];
      try lia.
    + cbn in Hpar. lia.
    + cbn in Hpar.
      destruct (Hwin j t ltac:(lia) Ht2) as (_ & _ & _ & [Hp | (Hpr & _)]); lia.
    + destruct (Hwin j t ltac:(lia) Ht2) as (Hbt & _).
      assert (elapsed E p (S (S w)) <= elapsed E p (S (S (S w))))
        by (apply Hm; lia).
      rewrite He. lia.
    + apply (Hsib i j s t); auto; lia.
Qed.

Lemma calls_timed cs : well_nested cs -> timed_body E (calls E cs).
Proof.
  intros H. induction H as [| name b1 b2 H1 _ IH1 IH2] using well_nested_ind.
  - exact ret_timed.
  - intros p w p' w' Hwf Hflow Hrun. rewrite calls_scoped in Hrun.
    exact (bind_timed _ _
             (scoped_timed name _ (calls_balanced b1 H1) IH1) IH2
             p w p' w' Hwf Hflow Hrun).
Qed.

Lemma steady_time_flows c w p w' :
  steady E w ->
  new_Profiler E c w = Done (p, w') ->
  time_flows E p w' /\
  forall k, (w <= k)%nat -> elapsed E p k = steady_clock_now E k - steady_clock_now E w.
Proof.
  intros Hsteady H. apply new_Profiler_inv in H as (_ & _ & _ & Hst & _ & _ & ->).
  assert (Hel : forall k, (w <= k)%nat ->
                          elapsed E p k = steady_clock_now E k - steady_clock_now E w).
  { intros k Hk. unfold elapsed. rewrite Hst. apply to_uint64_small.
    destruct (Hsteady w k ltac:(lia)). lia. }
  split; [| exact Hel].
  intros j k Hjk. rewrite !Hel by lia. destruct (Hsteady j k ltac:(lia)). lia.
Qed.


(** ** Counting records and slots *)

Lemma call_count_capacity c p w p' w' :
  wf p ->
  call E c p w = Done (p', w') ->
  exists g : nat,
    SampleCount p' = SampleCount p + count_begins [c] + Z.of_nat g /\
    SampleCapacity p' = SampleCapacity p * 2 ^ Z.of_nat g /\
    forall bound, SampleCapacity p <= Z.max bound (2 * SampleCount p) ->
                  SampleCapacity p' <= Z.max bound (2 * SampleCount p').
Proof.
  intros Hwf H. destruct c as [name|]; cbn [call count_begins] in *.
  - destruct (BeginSample_facts E name p w p' w' Hwf H)
      as (_ & _ & _ & _ & _ & _ & _ & Hg).
    destruct (triggers_growth p) eqn:Htg.
    + apply triggers_growth_true in Htg. destruct Hg as (-> & -> & _).
      exists 1%nat. split; [lia |]. split; [lia |]. intros bound Hb. lia.
    + destruct Hg as (-> & -> & _).
      exists 0%nat. split; [lia |]. split; [lia |]. intros bound Hb. lia.
  - apply EndSample_inv in H as (s & _ & _ & _ & ->). cbn.
    exists 0%nat. split; [lia |]. split; [lia |]. intros bound Hb. lia.
Qed.

Lemma calls_count_capacity cs : forall p w p' w',
  wf p ->
  calls E cs p w = Done (p', w') ->
  exists g : nat,
    SampleCount p' = SampleCount p + count_begins cs + Z.of_nat g /\
    SampleCapacity p' = SampleCapacity p * 2 ^ Z.of_nat g /\
    forall bound, SampleCapacity p <= Z.max bound (2 * SampleCount p) ->
                  SampleCapacity p' <= Z.max bound (2 * SampleCount p').
Proof.
  induction cs as [|c cs IH]; intros p w p' w' Hwf H; cbn [calls] in H.
  - apply ret_inv in H as [-> ->]. exists 0%nat. cbn. split; [lia |].
    split; [lia | auto].
  - apply bind_inv in H as (q & w1 & Hq & H).
    destruct (call_count_capacity c p w q w1 Hwf Hq) as (g1 & Hc1 & Hk1 & Hb1).
    destruct (IH q w1 p' w' (call_wf E c p w q w1 Hwf Hq) H) as (g2 & Hc2 & Hk2 & Hb2).
    exists (g1 + g2)%nat.
    assert (count_begins (c :: cs) = count_begins [c] + count_begins cs)
      by (destruct c; cbn; lia).
    split; [lia |]. split; [| auto].
    rewrite Hk2, Hk1, Nat2Z.inj_add, Z.pow_add_r by lia. lia.
Qed.

(** ** Records once written *)

Lemma call_keeps_records c p w p' w' :
  wf p ->
  call E c p w = Done (p', w') ->
  SampleCount p <= SampleCount p' /\
  forall i s,
    0 <= i < SampleCount p ->
    SamplePool p !! Z.to_nat i = Some s ->
    exists s',
      SamplePool p' !! Z.to_nat i = Some s' /\
      Parent s' = Parent s /\
      BeginNanoseconds s' = BeginNanoseconds s /\
      Name s' = Name s /\
      (EndNanoseconds s' = EndNanoseconds s \/
       c = End_ /\ i = CurrentSample p /\ EndNanoseconds s' = elapsed E p w).
Proof.
  intros Hwf H. destruct c as [name|]; cbn [call] in H.
  - destruct (BeginSample_opens name p w p' w' Hwf H)
      as (_ & _ & Hcnt & _ & _ & Hold & _).
    split; [lia |]. intros i s Hi Hs. exists s.
    rewrite Hold by lia. auto 10.
  - destruct Hwf as [Hl Ha Hc Hf Hcur Hpar].
    apply EndSample_inv in H as (s0 & Hc0 & Hs0 & _ & ->). cbn [SampleCount SamplePool].
    split; [lia |]. intros i s Hi Hs.
    destruct (Z.eq_dec i (CurrentSample p)) as [-> | Hne].
    + rewrite Hs0 in Hs. injection Hs as ->.
      eexists. split; [apply lookup_store_eq; lia |]. cbn. auto 10.
    + exists s. rewrite lookup_store_ne by lia. auto 10.
Qed.

(** ** Begin times in pool order *)

Lemma call_begins_sorted c p w p' w' :
  wf p -> time_flows E p w -> begins_sorted E p w ->
  call E c p w = Done (p', w') ->
  begins_sorted E p' w' /\ time_flows E p' w'.
Proof.
  intros Hwf Hflow [Hsorted Hbound] H.
  assert (Hstart : ClockStart p' = ClockStart p /\ (w < w')%nat).
  { destruct c as [name|]; cbn [call] in H.
    - destruct (BeginSample_opens name p w p' w' Hwf H) as (_ & _ & _ & ? & ? & _).
      auto.
    - apply EndSample_inv in H as (s0 & _ & _ & -> & ->). cbn. auto. }
  destruct Hstart as [Hst Hw].
  split; [| apply (time_flows_later p p' w w' Hst ltac:(lia) Hflow)].
  assert (Hle : forall k, (w <= k)%nat -> elapsed E p w <= elapsed E p k)
    by (intros k Hk; apply Hflow; lia).
  pose proof Hwf as [Hl Ha Hc Hf Hcur Hpar].
  (* the begin time of every record of [p'] *)
  assert (Hbegin : forall i s',
             0 <= i < SampleCount p' ->
             SamplePool p' !! Z.to_nat i = Some s' ->
             BeginNanoseconds s' <= elapsed E p w' /\
             ((i < SampleCount p /\
               exists s, SamplePool p !! Z.to_nat i = Some s /\
                         BeginNanoseconds s' = BeginNanoseconds s) \/
              (i = SampleCount p /\ BeginNanoseconds s' = elapsed E p w) \/
              (i = SampleCount p + 1 /\ BeginNanoseconds s' = elapsed E p (S w)
               /\ w' = S (S (S w))))).
  { intros i s' Hi Hs'.
    destruct (Z.lt_ge_cases i (SampleCount p)) as [Hlt | Hge].
    - destruct (lookup_lt_is_Some_2 (SamplePool p) (Z.to_nat i)) as [s Hs]; [lia |].
      destruct (call_keeps_records c p w p' w' Hwf H) as [_ Hkeep].
      destruct (Hkeep i s ltac:(lia) Hs) as (s2 & Hs2 & _ & Hb & _).
      rewrite Hs2 in Hs'. injection Hs' as <-.
      split; [| left; split; [exact Hlt | eauto]].
      rewrite Hb. specialize (Hbound i s ltac:(lia) Hs). specialize (Hle w'). lia.
    - destruct c as [name|]; cbn [call] in H.
      + destruct (BeginSample_opens name p w p' w' Hwf H)
          as (_ & _ & Hcnt & _ & _ & _ & unset & Hop).
        destruct (Z.eq_dec i (SampleCount p)) as [-> | Hne].
        * rewrite Hop in Hs'. injection Hs' as <-. cbn.
          split; [apply Hle; lia | right; left; auto].
        * destruct (BeginSample_marker name p w p' w' Hwf H i s' ltac:(lia) Hs')
            as (_ & Hb & _ & ->).
          rewrite Hb. split; [apply Hflow; lia | right; right].
          split; [lia | auto].
      + apply EndSample_inv in H as (s0 & _ & _ & _ & ->). cbn in Hi. lia. }
  split.
  - intros i j s t Hi Hij Hj Hs Ht.
    destruct (Z.eq_dec i j) as [-> | Hne]; [rewrite Hs in Ht; injection Ht as <-; lia |].
    destruct (Hbegin i s ltac:(lia) Hs) as [_ Hci].
    destruct (Hbegin j t ltac:(lia) Ht) as [_ Hcj].
    destruct Hci as [(Hi1 & si & Hsi & ->) | [(-> & ->) | (-> & -> & Hw3)]];
      destruct Hcj as [(Hj1 & sj & Hsj & ->) | [(-> & ->) | (-> & -> & Hw4)]];
      try lia.
    + apply (Hsorted i j si sj); auto; lia.
    + apply (Hbound i si); [lia | exact Hsi].
    + specialize (Hbound i si ltac:(lia) Hsi). specialize (Hle (S w)). lia.
    + apply Hle. lia.
  - intros i s Hi Hs. rewrite (elapsed_same_start p p') by exact Hst.
    apply (Hbegin i s Hi Hs).
Qed.

Lemma calls_begins_sorted cs : forall p w p' w',
  wf p -> time_flows E p w -> begins_sorted E p w ->
  calls E cs p w = Done (p', w') ->
  begins_sorted E p' w'.
Proof.
  induction cs as [|c cs IH]; intros p w p' w' Hwf Hflow Hsorted H; cbn [calls] in H.
  - apply ret_inv in H as [-> ->]. exact Hsorted.
  - apply bind_inv in H as (q & w1 & Hq & H).
    destruct (call_begins_sorted c p w q w1 Hwf Hflow Hsorted Hq) as [Hs1 Hf1].
    exact (IH q w1 p' w' (call_wf E c p w q w1 Hwf Hq) Hf1 Hs1 H).
Qed.

(** ** The current sample and the calls made *)

Lemma calls_depths_exist cs : forall p open depths w p' w',
  calls E cs p w = Done (p', w') ->
  exists open' depths',
    calls_depths E cs p open depths w = Done ((p', open', depths'), w').
Proof.
  induction cs as [|c cs IH]; intros p open depths w p' w' H;
    cbn [calls calls_depths] in *.
  - apply ret_inv in H as [-> ->]. eauto.
  - apply bind_inv in H as (q & w1 & Hq & H).
    assert (Hcd : exists o ds, call_depths E c p open depths w = Done ((q, o, ds), w1)).
    { destruct c as [name|]; cbn [call call_depths] in *;
        rewrite (bind_Done _ _ _ _ _ Hq); eauto. }
    destruct Hcd as (o & ds & Hcd).
    destruct (IH q o ds w1 p' w' H) as (o' & ds' & Hrest).
    exists o', ds'. rewrite (bind_Done _ _ _ _ _ Hcd). exact Hrest.
Qed.


(** ** Further properties of the recorder *)

(** X1.  In every state a program can reach, the parent of a record is -1
    or the index of an earlier record: parent links never point forward or
    at the record itself. *)
Theorem parents_precede p :
  reachable E p ->
  forall i s,
    0 <= i < SampleCount p ->
    SamplePool p !! Z.to_nat i = Some s ->
    -1 <= Parent s < i.
Proof.
  intros Hr i s Hi Hs.
  destruct (reachable_wf E p Hr) as [_ _ _ _ _ Hparent].
  exact (Hparent i s Hi Hs).
Qed.

(** X2.  Calls only append: whatever sequence of calls completes, no record
    is removed and the parent, the begin time and the name of every record
    written before stay as they were, at the same index. *)
Theorem records_are_stable cs : forall p w p' w',
  wf p ->
  calls E cs p w = Done (p', w') ->
  SampleCount p <= SampleCount p' /\
  forall i s,
    0 <= i < SampleCount p ->
    SamplePool p !! Z.to_nat i = Some s ->
    exists s',
      SamplePool p' !! Z.to_nat i = Some s' /\
      Parent s' = Parent s /\
      BeginNanoseconds s' = BeginNanoseconds s /\
      Name s' = Name s.
Proof.
  induction cs as [|c cs IH]; intros p w p' w' Hwf H; cbn [calls] in H.
  - apply ret_inv in H as [-> ->]. split; [lia |]. intros i s Hi Hs. eauto.
  - apply bind_inv in H as (q & w1 & Hq & H).
    destruct (call_keeps_records c p w q w1 Hwf Hq) as [Hcnt1 Hkeep1].
    destruct (IH q w1 p' w' (call_wf E c p w q w1 Hwf Hq) H) as [Hcnt2 Hkeep2].
    split; [lia |]. intros i s Hi Hs.
    destruct (Hkeep1 i s Hi Hs) as (s1 & Hs1 & Hp1 & Hb1 & Hn1 & _).
    destruct (Hkeep2 i s1 ltac:(lia) Hs1) as (s2 & Hs2 & Hp2 & Hb2 & Hn2).
    exists s2. split; [exact Hs2 |]. split; [congruence |].
    split; congruence.
Qed.

(** X3.  After any completed session no [EndSample] came with nothing
    open, and [CurrentSample] is -1 exactly when as many samples were ended
    as were begun; otherwise the chain of parents from [CurrentSample] has
    one record for each sample still open. *)
Theorem current_tracks_nesting initialCapacity cs w p w' :
  session E initialCapacity cs w = Done (p, w') ->
  exists open,
    nesting 0 cs = Some open /\
    (CurrentSample p = -1 <-> open = 0%nat) /\
    forall d, open = S d ->
              0 <= CurrentSample p < SampleCount p /\
              steps_to_top_level (Z.to_nat (SampleCount p)) (SamplePool p)
                (CurrentSample p) = Some d.
Proof.
  unfold session. intros H.
  apply bind_inv in H as (p0 & w0 & H0 & H).
  pose proof (new_Profiler_depth_inv E _ _ _ _ H0) as Hinv0.
  destruct (calls_depths_exist cs p0 0%nat [] w0 p w' H) as (open & depths & Hd).
  destruct (calls_depths_inv E _ _ _ _ _ _ _ _ _ Hinv0 Hd) as [Hinv _].
  exists open. split; [exact (calls_depths_nesting E _ _ _ _ _ _ _ _ _ Hinv0 Hd) |].
  destruct Hinv as (Hwf & Hlen & Hch & Hopen).
  destruct Hwf as [_ _ _ _ Hcur _].
  destruct open as [|d0].
  - split; [tauto | discriminate].
  - destruct Hopen as [Hc0 Hdepth].
    split; [split; [lia | discriminate] |].
    intros d [= <-]. split; [lia |].
    destruct (Hch (CurrentSample p) ltac:(lia)) as (d1 & Hd1 & Hst).
    rewrite Hdepth in Hd1. injection Hd1 as <-.
    apply (steps_to_top_level_mono _ _ _ _ _ Hst). lia.
Qed.

(** X4.  From any well-formed state, a well-nested sequence of calls that
    completes gives the recorder back at the nesting it started from: the
    same sample is current, and every record written before is unchanged in
    all its fields. *)
Theorem well_nested_calls_keep_nesting cs p w p' w' :
  wf p ->
  well_nested cs ->
  calls E cs p w = Done (p', w') ->
  wf p' /\
  CurrentSample p' = CurrentSample p /\
  SampleCount p <= SampleCount p' /\
  forall i, 0 <= i < SampleCount p ->
            SamplePool p' !! Z.to_nat i = SamplePool p !! Z.to_nat i.
Proof.
  intros Hwf Hn H.
  destruct (calls_balanced cs Hn p w p' w' Hwf H)
    as [(Hwf' & Hcur & Hcnt & _ & Hold) _].
  split; [exact Hwf' |]. split; [exact Hcur |]. split; [exact Hcnt |].
  intros i Hi. apply Hold. lia.
Qed.

(** X5.  A block that holds a [ScopedSampler] and whose body keeps the
    nesting leaves the recorder at the nesting it found: the sample of the
    sampler has been begun on entry with the sample current then as its
    parent and is ended on exit with the reading made there; the records
    written before the block are unchanged. *)
Theorem scoped_sample_closed name body p w p' w' :
  balanced_body body ->
  wf p ->
  scoped E name body p w = Done (p', w') ->
  extends p p' /\
  SampleCount p < SampleCount p' /\
  SamplePool p' !! Z.to_nat (SampleCount p) =
    Some {| Parent := CurrentSample p;
            BeginNanoseconds := elapsed E p w;
            EndNanoseconds := elapsed E p (Nat.pred w');
            Name := name |}.
Proof.
  intros Hbody Hwf H.
  destruct (scoped_closes name body p w p' w' Hbody Hwf H)
    as (Hext & _ & unset & p1 & w1 & p2 & w2 & Hbegin & Hrun & -> & _
        & Hcnt' & _ & Hop').
  split; [exact Hext |]. split; [| exact Hop'].
  destruct (BeginSample_opens name p w p1 w1 Hwf Hbegin)
    as (Hwf1 & _ & Hcnt1 & _).
  destruct (Hbody p1 w1 p2 w2 Hwf1 Hrun) as [(_ & _ & Hcnt2 & _) _].
  lia.
Qed.

(** X6.  A completed session holds one record for each [BeginSample] call
    and one for each reallocation, and its capacity is the initial one
    doubled once for each reallocation. *)
Theorem records_and_capacity initialCapacity cs w p w' :
  session E initialCapacity cs w = Done (p, w') ->
  exists reallocations : nat,
    SampleCount p = count_begins cs + Z.of_nat reallocations /\
    SampleCapacity p = Z.max 2 initialCapacity * 2 ^ Z.of_nat reallocations.
Proof.
  unfold session. intros H.
  apply bind_inv in H as (p0 & w0 & H0 & H).
  pose proof (new_Profiler_wf E _ _ _ _ H0) as Hwf0.
  apply new_Profiler_inv in H0 as (Hc0 & _ & Hk0 & _).
  destruct (calls_count_capacity cs p0 w0 p w' Hwf0 H) as (g & Hc & Hk & _).
  exists g. split; [lia |]. rewrite Hk, Hk0. reflexivity.
Qed.

(** X7.  The pool of a session never holds more than twice the slots its
    records take, unless it still has the capacity it was created with. *)
Theorem capacity_bounded initialCapacity cs w p w' :
  session E initialCapacity cs w = Done (p, w') ->
  SampleCapacity p <= Z.max (Z.max 2 initialCapacity) (2 * SampleCount p).
Proof.
  unfold session. intros H.
  apply bind_inv in H as (p0 & w0 & H0 & H).
  pose proof (new_Profiler_wf E _ _ _ _ H0) as Hwf0.
  apply new_Profiler_inv in H0 as (Hc0 & _ & Hk0 & _).
  destruct (calls_count_capacity cs p0 w0 p w' Hwf0 H) as (g & _ & _ & Hb).
  apply Hb. lia.
Qed.

(** X8.  Under a steady clock the begin times of the records of a session
    are in pool order: a record never begins before a record with a smaller
    index. *)
Theorem begin_times_sorted initialCapacity cs w p w' :
  steady E w ->
  session E initialCapacity cs w = Done (p, w') ->
  forall i j s t,
    0 <= i -> i <= j -> j < SampleCount p ->
    SamplePool p !! Z.to_nat i = Some s ->
    SamplePool p !! Z.to_nat j = Some t ->
    BeginNanoseconds s <= BeginNanoseconds t.
Proof.
  unfold session. intros Hsteady H.
  apply bind_inv in H as (p0 & w0 & H0 & H).
  pose proof (new_Profiler_wf E _ _ _ _ H0) as Hwf0.
  destruct (steady_time_flows _ _ _ _ Hsteady H0) as [Hflow _].
  apply new_Profiler_inv in H0 as (Hc0 & _).
  assert (Hs0 : begins_sorted E p0 w0).
  { split; [intros i j s t Hi Hij Hj | intros i s Hi]; lia. }
  apply (calls_begins_sorted cs p0 w0 p w' Hwf0 Hflow Hs0 H).
Qed.

(** X9.  Under a steady clock, after a well-nested session every record is
    closed with its end not before its begin, the window of a record lies
    within the window of its parent, and of two records with the same
    parent the later one begins when the earlier one has ended.  This holds
    for the records of reallocations as well. *)
Theorem session_windows_nest initialCapacity cs w p w' :
  steady E w ->
  well_nested cs ->
  session E initialCapacity cs w = Done (p, w') ->
  (forall i s,
      0 <= i < SampleCount p ->
      SamplePool p !! Z.to_nat i = Some s ->
      0 <= BeginNanoseconds s <= EndNanoseconds s /\
      (Parent s = -1 \/
       0 <= Parent s < i /\
       exists s', SamplePool p !! Z.to_nat (Parent s) = Some s' /\
                  BeginNanoseconds s' <= BeginNanoseconds s /\
                  EndNanoseconds s <= EndNanoseconds s')) /\
  (forall i j s t,
      0 <= i < j -> j < SampleCount p ->
      SamplePool p !! Z.to_nat i = Some s ->
      SamplePool p !! Z.to_nat j = Some t ->
      Parent s = Parent t ->
      EndNanoseconds s <= BeginNanoseconds t).
Proof.
  unfold session. intros Hsteady Hn H.
  apply bind_inv in H as (p0 & w0 & H0 & H).
  pose proof (new_Profiler_wf E _ _ _ _ H0) as Hwf0.
  destruct (steady_time_flows _ _ _ _ Hsteady H0) as [Hflow Hel].
  pose proof H0 as Hnew.
  apply new_Profiler_inv in Hnew as (Hc0 & Hcur0 & _ & _ & _ & _ & ->).
  destruct (calls_timed cs Hn p0 (S w) p w' Hwf0 Hflow H) as (_ & _ & Hwin & Hsib).
  assert (H0le : 0 <= elapsed E p0 (S w)).
  { rewrite Hel by lia. destruct (Hsteady w (S w) ltac:(lia)). lia. }
  rewrite Hc0, Hcur0 in *.
  split.
  - intros i s Hi Hs. destruct (Hwin i s Hi Hs) as (Hb & Hbe & _ & Hp).
    split; [lia | exact Hp].
  - intros i j s t Hij Hj. apply Hsib; lia.
Qed.


(** X10.  On a well-formed state [BeginSample] has one way to fail: the
    pool has to be reallocated and the heap does not serve the doubled
    pool.  It never runs out of bounds and its arithmetic never overflows. *)
Theorem BeginSample_fails_only_on_allocation name p w :
  wf p ->
  match BeginSample E name p w with
  | Done _ =>
      triggers_growth p = true -> grants E (SampleCapacity p * 2) = true
  | Crash f =>
      f = BadAlloc /\ triggers_growth p = true /\
      grants E (SampleCapacity p * 2) = false
  end.
Proof.
  intros Hwf.
  destruct (BeginSample_cases E name p w Hwf) as [(p' & w' & H) | [Htg H]].
  - rewrite H. intros Htg.
    destruct (BeginSample_facts E name p w p' w' Hwf H)
      as (_ & _ & _ & _ & _ & _ & _ & Hg).
    rewrite Htg in Hg. tauto.
  - rewrite H. split; [reflexivity |]. split; [exact Htg |].
    destruct (grants E (SampleCapacity p * 2)) eqn:Hgr; [| reflexivity].
    destruct (BeginSample_Done E name p w Hwf (fun _ => Hgr)) as (p' & w' & Hd).
    congruence.
Qed.

End NestingFacts.

(** X11.  On every recorder a program can reach that holds at most
    [INT_MAX] records the export succeeds without reading the clock and
    delivers one event per record, in pool order: the rendering of the
    event of each record.  The variant that appends leaves what the caller
    supplied in front of these events. *)
Theorem export_of_reachable (E : Platform) p appendTo w :
  reachable E p ->
  SampleCount p <= INT_MAX ->
  ToChromeTracingEvents p w =
    Done (map (fun e => render (event_of e))
              (take (Z.to_nat (SampleCount p)) (SamplePool p)), w) /\
  ToChromeTracingEvents_append p appendTo w =
    Done (appendTo ++ map (fun e => render (event_of e))
                          (take (Z.to_nat (SampleCount p)) (SamplePool p)), w) /\
  Z.of_nat (length (take (Z.to_nat (SampleCount p)) (SamplePool p)))
  = SampleCount p.
Proof.
  intros Hr Hmax. destruct (reachable_wf E p Hr) as [Hl _ Hc Hf _ _].
  unfold ToChromeTracingEvents, ToChromeTracingEvents_append.
  rewrite !(ToChromeTracingEvents_from_Done p (Z.to_nat (SampleCount p))) by lia.
  change (Z.to_nat 0) with 0%nat. rewrite !drop_0.
  split; [reflexivity |]. split; [reflexivity |].
  rewrite length_take. lia.
Qed.

(** ** The further properties at work *)

Lemma reachable_fresh_recorder_in_A : reachable example_platform fresh_recorder_in_A.
Proof.
  apply (reachable_call example_platform (Begin "A") fresh_recorder 1%nat
           fresh_recorder_in_A 4%nat); [| reflexivity].
  exact (reachable_new example_platform 2 0%nat fresh_recorder 1%nat eq_refl).
Qed.

Lemma steady_capped_platform : steady capped_platform 0.
Proof. intros j k Hjk. unfold SIZE_MAX. cbn. lia. Qed.

Lemma parents_precede_witness :
  reachable example_platform fresh_recorder_in_A /\
  -1 <= Parent (mkSample 0 3000 4500 ReallocateSamplePool_name) < 1.
Proof.
  split; [exact reachable_fresh_recorder_in_A |].
  apply (parents_precede example_platform fresh_recorder_in_A
           reachable_fresh_recorder_in_A 1); [cbn; lia | reflexivity].
Defined.

Lemma records_are_stable_witness :
  wf fresh_recorder_in_A /\
  exists p' w' s',
    calls example_platform [Begin "B"; End_] fresh_recorder_in_A 4%nat
    = Done (p', w') /\
    SamplePool p' !! 0%nat = Some s' /\
    Parent s' = -1 /\ BeginNanoseconds s' = 1500 /\ Name s' = "A".
Proof.
  split; [exact wf_fresh_recorder_in_A |].
  destruct (calls example_platform [Begin "B"; End_] fresh_recorder_in_A 4%nat)
    as [[p' w']|f] eqn:Hrun; [| vm_compute in Hrun; discriminate Hrun].
  destruct (records_are_stable example_platform [Begin "B"; End_]
              fresh_recorder_in_A 4%nat p' w' wf_fresh_recorder_in_A Hrun)
    as [_ Hkeep].
  destruct (Hkeep 0 (mkSample (-1) 1500 0 "A")) as (s' & Hs' & Hp & Hb & Hn);
    [cbn; lia | reflexivity |].
  exists p', w', s'. split; [reflexivity |]. split; [exact Hs' |].
  split; [exact Hp |]. split; [exact Hb | exact Hn].
Defined.

Lemma current_tracks_nesting_witness :
  exists p w' open,
    session example_platform 2 [Begin "A"; Begin "B"; End_] 0%nat = Done (p, w') /\
    nesting 0 [Begin "A"; Begin "B"; End_] = Some open /\
    (CurrentSample p = -1 <-> open = 0%nat).
Proof.
  destruct (session example_platform 2 [Begin "A"; Begin "B"; End_] 0%nat)
    as [[p w']|f] eqn:Hrun; [| vm_compute in Hrun; discriminate Hrun].
  destruct (current_tracks_nesting example_platform 2
              [Begin "A"; Begin "B"; End_] 0%nat p w' Hrun)
    as (open & Hn & Hiff & _).
  exists p, w', open. split; [reflexivity |]. split; [exact Hn | exact Hiff].
Defined.

Lemma well_nested_calls_keep_nesting_witness :
  wf recorder_in_A /\
  well_nested [Begin "B"; End_] /\
  exists p' w',
    calls example_platform [Begin "B"; End_] recorder_in_A 2%nat = Done (p', w') /\
    CurrentSample p' = CurrentSample recorder_in_A /\
    SamplePool p' !! 0%nat = Some (mkSample (-1) 1500 0 "A").
Proof.
  split; [exact wf_recorder_in_A |]. split; [reflexivity |].
  destruct (calls example_platform [Begin "B"; End_] recorder_in_A 2%nat)
    as [[p' w']|f] eqn:Hrun; [| vm_compute in Hrun; discriminate Hrun].
  destruct (well_nested_calls_keep_nesting example_platform [Begin "B"; End_]
              recorder_in_A 2%nat p' w' wf_recorder_in_A eq_refl Hrun)
    as (_ & Hcur & _ & Hold).
  exists p', w'. split; [reflexivity |]. split; [exact Hcur |].
  apply (Hold 0). cbn. lia.
Defined.

Lemma scoped_sample_closed_witness :
  balanced_body (calls example_platform [Begin "B"; End_]) /\
  wf recorder_in_A /\
  exists p' w',
    scoped example_platform "S" (calls example_platform [Begin "B"; End_])
      recorder_in_A 2%nat = Done (p', w') /\
    CurrentSample p' = CurrentSample recorder_in_A /\
    SamplePool p' !! 1%nat = Some (mkSample 0 3000 10500 "S").
Proof.
  assert (Hbody : balanced_body (calls example_platform [Begin "B"; End_])).
  { apply calls_balanced. reflexivity. }
  split; [exact Hbody |]. split; [exact wf_recorder_in_A |].
  destruct (scoped example_platform "S" (calls example_platform [Begin "B"; End_])
              recorder_in_A 2%nat)
    as [[p' w']|f] eqn:Hrun; [| vm_compute in Hrun; discriminate Hrun].
  destruct (scoped_sample_closed example_platform "S" _ recorder_in_A 2%nat p' w'
              Hbody wf_recorder_in_A Hrun)
    as ((_ & Hcur & _) & _ & Hclosed).
  exists p', w'. split; [reflexivity |]. split; [exact Hcur |].
  assert (Hw : w' = 8%nat).
  { pose proof Hrun as H. vm_compute in H. injection H as _ <-. reflexivity. }
  subst w'. exact Hclosed.
Defined.

Lemma records_and_capacity_witness :
  exists p w' reallocations,
    session example_platform 2
      [Begin "A"; End_; Begin "B"; End_; Begin "C"; End_] 0%nat = Done (p, w') /\
    SampleCount p = 3 + Z.of_nat reallocations /\
    SampleCapacity p = 2 * 2 ^ Z.of_nat reallocations.
Proof.
  destruct (session example_platform 2
              [Begin "A"; End_; Begin "B"; End_; Begin "C"; End_] 0%nat)
    as [[p w']|f] eqn:Hrun; [| vm_compute in Hrun; discriminate Hrun].
  destruct (records_and_capacity example_platform 2
              [Begin "A"; End_; Begin "B"; End_; Begin "C"; End_] 0%nat p w' Hrun)
    as (g & Hc & Hk).
  exists p, w', g. split; [reflexivity |]. split; [exact Hc | exact Hk].
Defined.

Lemma capacity_bounded_witness :
  exists p w',
    session example_platform 2
      [Begin "A"; End_; Begin "B"; End_; Begin "C"; End_] 0%nat = Done (p, w') /\
    SampleCapacity p <= Z.max (Z.max 2 2) (2 * SampleCount p).
Proof.
  destruct (session example_platform 2
              [Begin "A"; End_; Begin "B"; End_; Begin "C"; End_] 0%nat)
    as [[p w']|f] eqn:Hrun; [| vm_compute in Hrun; discriminate Hrun].
  exists p, w'. split; [reflexivity |].
  exact (capacity_bounded example_platform 2
           [Begin "A"; End_; Begin "B"; End_; Begin "C"; End_] 0%nat p w' Hrun).
Defined.

Lemma begin_times_sorted_witness :
  steady capped_platform 0 /\
  exists p w' s t,
    session capped_platform 2 [Begin "A"; Begin "B"; End_] 0%nat = Done (p, w') /\
    SamplePool p !! 1%nat = Some s /\
    SamplePool p !! 2%nat = Some t /\
    BeginNanoseconds s <= BeginNanoseconds t.
Proof.
  split; [exact steady_capped_platform |].
  destruct (session capped_platform 2 [Begin "A"; Begin "B"; End_] 0%nat)
    as [[p w']|f] eqn:Hrun; [| vm_compute in Hrun; discriminate Hrun].
  pose proof (begin_times_sorted capped_platform 2 [Begin "A"; Begin "B"; End_]
                0%nat p w' steady_capped_platform Hrun) as Hsorted.
  vm_compute in Hrun. injection Hrun as <- <-.
  do 4 eexists. split; [reflexivity |]. split; [reflexivity |].
  split; [reflexivity |].
  apply (Hsorted 1 2); [lia | lia | cbn; lia | reflexivity | reflexivity].
Defined.

Lemma session_windows_nest_witness :
  steady capped_platform 0 /\
  well_nested [Begin "A"; Begin "B"; End_; End_] /\
  exists p w' a b,
    session capped_platform 2 [Begin "A"; Begin "B"; End_; End_] 0%nat
    = Done (p, w') /\
    SamplePool p !! 0%nat = Some a /\
    SamplePool p !! 2%nat = Some b /\
    Parent b = 0 /\
    BeginNanoseconds a <= BeginNanoseconds b /\
    EndNanoseconds b <= EndNanoseconds a.
Proof.
  split; [exact steady_capped_platform |]. split; [reflexivity |].
  destruct (session capped_platform 2 [Begin "A"; Begin "B"; End_; End_] 0%nat)
    as [[p w']|f] eqn:Hrun; [| vm_compute in Hrun; discriminate Hrun].
  destruct (session_windows_nest capped_platform 2
              [Begin "A"; Begin "B"; End_; End_] 0%nat p w'
              steady_capped_platform eq_refl Hrun) as [Hwin _].
  vm_compute in Hrun. injection Hrun as <- <-.
  destruct (Hwin 2 (mkSample 0 6000 10500 "B")) as (_ & Hp);
    [cbn; lia | reflexivity |].
  destruct Hp as [Hp | (_ & a & Ha & Hb & He)]; [discriminate Hp |].
  do 4 eexists. split; [reflexivity |]. split; [exact Ha |].
  split; [reflexivity |]. split; [reflexivity |]. split; [exact Hb | exact He].
Defined.

Lemma BeginSample_fails_only_on_allocation_witness :
  wf fresh_recorder /\
  match BeginSample capped_platform "A" fresh_recorder 1%nat with
  | Done _ => grants capped_platform 4 = true
  | Crash f => f = BadAlloc
  end.
Proof.
  split; [exact wf_fresh_recorder |].
  pose proof (BeginSample_fails_only_on_allocation capped_platform "A"
                fresh_recorder 1%nat wf_fresh_recorder) as H.
  destruct (BeginSample capped_platform "A" fresh_recorder 1%nat) as [r|f].
  - exact (H eq_refl).
  - exact (proj1 H).
Defined.

Lemma export_of_reachable_witness :
  reachable example_platform fresh_recorder_in_A /\
  SampleCount fresh_recorder_in_A <= INT_MAX /\
  exists events,
    ToChromeTracingEvents fresh_recorder_in_A 7%nat = Done (events, 7%nat) /\
    length events = 2%nat.
Proof.
  split; [exact reachable_fresh_recorder_in_A |].
  assert (Hmax : SampleCount fresh_recorder_in_A <= INT_MAX)
    by (unfold INT_MAX; cbn; lia).
  split; [exact Hmax |].
  destruct (export_of_reachable example_platform fresh_recorder_in_A [] 7%nat
              reachable_fresh_recorder_in_A Hmax) as (Hexport & _ & _).
  eexists. split; [exact Hexport | reflexivity].
Defined.

